(** * Host-side quiz session engine: tally, timer, scoring and validation

    A shallow embedding of the host screen of the quiz application
    ([src/components/quiz/GamePlay.tsx]) and of the quiz editor
    ([src/components/quiz/CreateQuiz.tsx]).

    Conventions of the embedding.
    - React state is threaded explicitly: a handler is a function from the
      state it reads to the state it leaves, and state setters take effect in
      program order.  A handler reads [currentQuestionIndex] and
      [questions] from the closure of the render it was created in.  For the
      handlers of the subscriptions, the deferred refreshes and
      [nextQuestion] the index of the closure is an explicit argument, so
      that their statements hold whichever render the closure stems from;
      [questions] is that of the state, which no handler changes once it is
      loaded, except where the closure is that of the first render, which
      holds no questions yet.
    - Integer-valued JS numbers (indices, counters, scores, seconds) are [Z].
      Quotients that the source computes with [/] are IEEE-754 doubles, the
      primitive [float] of the kernel, so that [Math.round] is applied to the
      very value the source rounds.
    - A JS object used as a dictionary is a [gmap string _]; an array is a
      [list]; [undefined]/[null] is [None].
    - Wall-clock stamps ([Date.now()], [updated_at]) and console output are
      left out: nothing in the modelled code reads them back. *)

From Stdlib Require Import ZArith NArith List Bool Lia Ascii String Floats Uint63.
From Stdlib Require Import Sorted Permutation.
From stdpp Require Import base option list gmap strings pretty.
Import ListNotations.

Local Open Scope string_scope.
Local Open Scope list_scope.
Local Open Scope Z_scope.

(** ** Data model (interfaces of GamePlay.tsx and rows of the store) *)

(** An entry of [Question.options]. *)
Record QOption := {
  opt_id : string;
  opt_text : string;
  opt_is_correct : bool
}.

Record Question := {
  q_id : string;
  q_text : string;
  time_limit : Z;
  options : list QOption
}.

(** [interface Player]; [totalCompletionTime] is an optional field. *)
Record Player := {
  id : string;
  name : string;
  score : Z;
  avatar : string;
  totalCompletionTime : option Z
}.

(** A row of [game_answers] of the session at hand. *)
Record Answer := {
  player_id : string;
  question_index : Z;
  option_id : string;
  is_correct : bool;
  time_taken : option Z
}.

(** [arr[i]] for a JS array and an integer-valued index: [undefined]
    outside [0 .. length-1]. *)
Definition js_index {A} (arr : list A) (i : Z) : option A :=
  if i <? 0 then None else arr !! Z.to_nat i.

(** [x || 0] on an optional number. *)
Definition or_zero (x : option Z) : Z :=
  match x with
  | Some v => v
  | None => 0
  end.

(** ** Tally of the current question *)

(** The pair of React states [answerStats] and [totalAnswers]. *)
Record Tally := {
  answerStats : gmap string Z;
  totalAnswers : Z
}.

(** [`q${questionIndex}_${option.id}`] *)
Definition uniqueKey (questionIndex : Z) (oid : string) : string :=
  "q" +:+ pretty questionIndex +:+ "_" +:+ oid.

(** The [forEach] that sets every option's key to [0]
    ([startTimer] and [refreshAnswerStats]). *)
Definition init_stats (questionIndex : Z) (opts : list QOption) : gmap string Z :=
  foldl (fun stats o => <[uniqueKey questionIndex (opt_id o) := 0]> stats) ∅ opts.

(** One round of the counting loop: [if (stats.hasOwnProperty(uniqueKey))
    stats[uniqueKey]++], otherwise only a warning is logged. *)
Definition count_answer (questionIndex : Z) (stats : gmap string Z) (oid : string)
  : gmap string Z :=
  let k := uniqueKey questionIndex oid in
  match stats !! k with
  | Some n => <[k := n + 1]> stats
  | None => stats
  end.

(** [.from("game_answers").select("option_id").eq("question_index", questionIndex)]
    over the rows of this session. *)
Definition select_option_ids (game_answers : list Answer) (questionIndex : Z)
  : list string :=
  map option_id
      (List.filter (fun a => question_index a =? questionIndex) game_answers).

(** The tally that [refreshAnswerStats] builds from the fetched rows:
    [stats] after the two loops, and [total = answers.length]. *)
Definition recount (questionIndex : Z) (currentQ : Question) (answers : list string)
  : Tally :=
  {| answerStats :=
       foldl (count_answer questionIndex)
             (init_stats questionIndex (options currentQ)) answers;
     totalAnswers := Z.of_nat (length answers) |}.

(** [refreshAnswerStats(questionIndex)].  [currentQuestionIndex] is the value
    held by the closure, [fetched] the outcome of the query ([None] when
    supabase reports an error).  The state is written only when the question
    asked for is still the closure's current question. *)
Definition refreshAnswerStats (qs : list Question) (currentQuestionIndex : Z)
    (questionIndex : Z) (fetched : option (list Answer)) (t : Tally) : Tally :=
  let currentStateQuestionIndex := currentQuestionIndex in
  if questionIndex <? 0 then t else
  match js_index qs questionIndex with
  | None => t
  | Some currentQ =>
    match fetched with
    | None => t
    | Some game_answers =>
      let fresh := recount questionIndex currentQ
                     (select_option_ids game_answers questionIndex) in
      if questionIndex =? currentStateQuestionIndex then fresh else t
    end
  end.



(** [Object.values(stats)] summed up. *)
Definition sum_counts (stats : gmap string Z) : Z :=
  map_fold (fun _ n acc => n + acc) 0 stats.

(** Payload of the [answer_submitted] broadcast, as far as it is read. *)
Record AnswerSubmitted := {
  as_question_index : Z;
  as_option_id : string
}.

(** The players whose rows the query for [questionIndex] returns. *)
Definition answering_players (game_answers : list Answer) (questionIndex : Z)
  : list string :=
  map player_id
      (List.filter (fun a => question_index a =? questionIndex) game_answers).

(** [option_id] is the id of one of the question's options. *)
Definition belongs_to (currentQ : Question) (oid : string) : bool :=
  existsb (fun o => String.eqb (opt_id o) oid) (options currentQ).

(** The key of [oid] is an own property of [stats]. *)
Definition known (qi : Z) (stats : gmap string Z) (oid : string) : bool :=
  bool_decide (is_Some (stats !! uniqueKey qi oid)).

(** ** Host state *)

(** Messages sent on the [game_<session>_sync] channel. *)
Inductive Broadcast :=
| game_started (total_questions : Z)
| question_started (question_index : Z) (time_limit : option Z)
| question_changed (question_index : Z)
| time_up (question_index : Z)
| game_ended.

(** The closure of the [setInterval] callback of [startTimer]: the question
    it was started for and its [let currentTime].  [None] stands for a value
    that is not a number ([undefined], and [NaN] once it is decremented). *)
Record Countdown := {
  cd_question : Z;
  cd_currentTime : option Z
}.

(** The columns of the [game_sessions] row that the host reads or writes. *)
Record SessionRow := {
  host_id : string;
  status : string;
  current_question_index : option Z
}.

(** The React state and refs of [GamePlay], the session row in the store,
    the broadcasts sent so far and the [startTimer] calls waiting in a
    [setTimeout]. *)
Record HostState := {
  questions : list Question;
  players : list Player;
  currentQuestionIndex : Z;
  timeLeft : option Z;
  showResults : bool;
  gameEnded : bool;
  isCalculatingResults : bool;
  tally : Tally;
  isPolling : bool;
  pollingRef : option Z;
  timerRef : option Countdown;
  session : SessionRow;
  sent : list Broadcast;
  scheduled : list (Z * option Z)
}.

(** [clearInterval(timerRef.current); timerRef.current = null] followed or
    preceded by [stopStatsPolling()]. *)
Definition clear_timers (s : HostState) : HostState :=
  {| questions := questions s;
     players := players s;
     currentQuestionIndex := currentQuestionIndex s;
     timeLeft := timeLeft s;
     showResults := showResults s;
     gameEnded := gameEnded s;
     isCalculatingResults := isCalculatingResults s;
     tally := tally s;
     isPolling := false;
     pollingRef := None;
     timerRef := None;
     session := session s;
     sent := sent s;
     scheduled := scheduled s |}.

(** What the first render holds: [useState(-1)] for [currentQuestionIndex]
    and [useState([])] for [questions].  The effect that loads the session
    and subscribes the handlers runs in the closure of that render. *)
Definition first_render_index : Z := -1.
Definition first_render_questions : list Question := [].

(** [startTimer(questionIndex, seconds)] in a closure whose [questions] is
    [qs]: a countdown held in the closure variable [currentTime],
    initialised to [seconds].  The polling it starts and the refresh it
    defers by 200 ms are runs of [refreshAnswerStats]. *)
Definition startTimer_in (qs : list Question) (questionIndex : Z)
    (seconds : option Z) (s : HostState) : HostState :=
  let s := clear_timers s in
  match js_index qs questionIndex with
  | None => s
  | Some currentQ =>
    {| questions := questions s;
       players := players s;
       currentQuestionIndex := currentQuestionIndex s;
       timeLeft := seconds;
       showResults := false;
       gameEnded := gameEnded s;
       isCalculatingResults := false;
       tally := {| answerStats := init_stats questionIndex (options currentQ);
                   totalAnswers := 0 |};
       isPolling := true;
       pollingRef := Some questionIndex;
       timerRef := Some {| cd_question := questionIndex;
                           cd_currentTime := seconds |};
       session := session s;
       sent := sent s ++ [question_started questionIndex seconds];
       scheduled := scheduled s |}
  end.

(** [startTimer] called by the handler of a button or by a timeout that such
    a handler sets: the render they stem from holds the loaded questions. *)
Definition startTimer (questionIndex : Z) (seconds : option Z) (s : HostState)
  : HostState :=
  startTimer_in (questions s) questionIndex seconds s.

(** [currentTime <= 0] on a possibly non-numeric value. *)
Definition time_is_up (currentTime : option Z) : bool :=
  match currentTime with
  | Some t => t <=? 0
  | None => false
  end.

(** One run of the interval callback installed by [startTimer]; without an
    interval no callback runs. *)
Definition tick (s : HostState) : HostState :=
  match timerRef s with
  | None => s
  | Some cd =>
    let currentTime := option_map (fun t => t - 1) (cd_currentTime cd) in
    if time_is_up currentTime then
      {| questions := questions s;
         players := players s;
         currentQuestionIndex := currentQuestionIndex s;
         timeLeft := currentTime;
         showResults := showResults s;
         gameEnded := gameEnded s;
         isCalculatingResults := true;
         tally := tally s;
         isPolling := false;
         pollingRef := None;
         timerRef := None;
         session := session s;
         sent := sent s ++ [time_up (cd_question cd)];
         scheduled := scheduled s |}
    else
      {| questions := questions s;
         players := players s;
         currentQuestionIndex := currentQuestionIndex s;
         timeLeft := currentTime;
         showResults := showResults s;
         gameEnded := gameEnded s;
         isCalculatingResults := isCalculatingResults s;
         tally := tally s;
         isPolling := isPolling s;
         pollingRef := pollingRef s;
         timerRef := Some {| cd_question := cd_question cd;
                             cd_currentTime := currentTime |};
         session := session s;
         sent := sent s;
         scheduled := scheduled s |}
  end.

(** The callback that the time-up branch defers by 500 ms:
    [refreshAnswerStats(questionIndex).then(...)] shows the results; [cqi]
    is the [currentQuestionIndex] held by the closure of that refresh. *)
Definition show_results (cqi questionIndex : Z) (fetched : option (list Answer))
    (s : HostState) : HostState :=
  {| questions := questions s;
     players := players s;
     currentQuestionIndex := currentQuestionIndex s;
     timeLeft := timeLeft s;
     showResults := true;
     gameEnded := gameEnded s;
     isCalculatingResults := false;
     tally := refreshAnswerStats (questions s) cqi questionIndex fetched
                (tally s);
     isPolling := isPolling s;
     pollingRef := pollingRef s;
     timerRef := timerRef s;
     session := session s;
     sent := sent s;
     scheduled := scheduled s |}.

(** [startGame]; [update_ok] tells whether the update of the session row
    went through (otherwise the error is thrown and only reported). *)
Definition startGame (update_ok : bool) (s : HostState) : HostState :=
  match questions s with
  | [] => s
  | q0 :: _ =>
    let s := clear_timers s in
    if negb update_ok then s else
    startTimer 0 (Some (time_limit q0))
      {| questions := questions s;
         players := players s;
         currentQuestionIndex := 0;
         timeLeft := timeLeft s;
         showResults := false;
         gameEnded := gameEnded s;
         isCalculatingResults := false;
         tally := {| answerStats :=
                       foldl (fun stats o => <[opt_id o := 0]> stats) ∅ (options q0);
                     totalAnswers := 0 |};
         isPolling := isPolling s;
         pollingRef := pollingRef s;
         timerRef := timerRef s;
         session := {| host_id := host_id (session s);
                       status := "active";
                       current_question_index := Some 0 |};
         sent := sent s ++ [game_started (Z.of_nat (length (questions s)))];
         scheduled := scheduled s |}
  end.

(** ** Scoring *)

(** [calculateScore]: a fixed score for every correct answer. *)
Definition calculateScore (secondsLeft : Z) : Z := 100.

(** The updater handed to [setPlayers] by the realtime [INSERT] handler. *)
Definition add_points (answer : Answer) (current : list Player) : list Player :=
  let pointsEarned := calculateScore 0 in
  map (fun player =>
         if String.eqb (id player) (player_id answer)
         then {| id := id player;
                 name := name player;
                 score := score player + pointsEarned;
                 avatar := avatar player;
                 totalCompletionTime := totalCompletionTime player |}
         else player) current.

(** The optimistic update shared by the realtime [INSERT] handler and the
    [answer_submitted] handler: bump the key when it is an own property of
    the stats, and count one more answer. *)
Definition bump_tally (uk : string) (t : Tally) : Tally :=
  {| answerStats :=
       match answerStats t !! uk with
       | Some n => <[uk := n + 1]> (answerStats t)
       | None => answerStats t
       end;
     totalAnswers := totalAnswers t + 1 |}.

(** The [answer_submitted] broadcast handler of [subscribeToAnswers]. *)
Definition on_answer_submitted (currentQuestionIndex : Z) (payload : AnswerSubmitted)
    (t : Tally) : Tally :=
  if as_question_index payload =? currentQuestionIndex then
    bump_tally (uniqueKey (as_question_index payload) (as_option_id payload)) t
  else t.

(** The [postgres_changes] [INSERT] handler of [subscribeToAnswers], run once
    per delivered notification; [cqi] is the [currentQuestionIndex] held by
    the closure.  The refresh that it defers by 50 ms is a run of
    [refreshAnswerStats]. *)
Definition on_answer_insert (cqi : Z) (answer : Answer) (s : HostState)
  : HostState :=
  {| questions := questions s;
     players := if is_correct answer then add_points answer (players s)
                else players s;
     currentQuestionIndex := currentQuestionIndex s;
     timeLeft := timeLeft s;
     showResults := showResults s;
     gameEnded := gameEnded s;
     isCalculatingResults := isCalculatingResults s;
     tally := if question_index answer =? cqi
              then bump_tally (uniqueKey (question_index answer) (option_id answer))
                     (tally s)
              else tally s;
     isPolling := isPolling s;
     pollingRef := pollingRef s;
     timerRef := timerRef s;
     session := session s;
     sent := sent s;
     scheduled := scheduled s |}.

(** The score shown for the player with the given id ([None] when there is
    no such player on the board). *)
Definition displayed_score (pid : string) (board : list Player) : option Z :=
  score <$> List.find (fun p => String.eqb (id p) pid) board.

(** ** Completion times and session progression *)

(** One round of the loop over the fetched answers in
    [calculatePlayerCompletionTimes]. *)
Definition add_time (playerCompletionTimes : gmap string Z) (answer : Answer)
  : gmap string Z :=
  let playerId := player_id answer in
  let pct :=
    if bool_decide (default 0 (playerCompletionTimes !! playerId) = 0)
    then <[playerId := 0]> playerCompletionTimes
    else playerCompletionTimes in
  <[playerId := default 0 (pct !! playerId) + or_zero (time_taken answer)]> pct.

(** [calculatePlayerCompletionTimes]; [fetched] is [None] when the query
    reports an error, which leaves the players as they are. *)
Definition calculatePlayerCompletionTimes (fetched : option (list Answer))
    (current : list Player) : list Player :=
  match fetched with
  | None => current
  | Some gameAnswers =>
    let playerCompletionTimes := foldl add_time ∅ gameAnswers in
    map (fun player =>
           {| id := id player;
              name := name player;
              score := score player;
              avatar := avatar player;
              totalCompletionTime :=
                Some (default 0 (playerCompletionTimes !! id player)) |})
        current
  end.

(** [nextQuestion] in a render whose [currentQuestionIndex] is [cqi].
    [fetched] is the answer set read when the game ends; [update_ok] tells
    whether the store accepts the update of the session row, whose error the
    code does not read, so that everything else happens either way.  The
    [startTimer] call of the other branch sits in a [setTimeout] and is
    recorded in [scheduled]; it is not reached when [questions[nextIndex]]
    is undefined, since reading its [time_limit] throws first. *)
Definition nextQuestion (cqi : Z) (update_ok : bool)
    (fetched : option (list Answer)) (s : HostState) : HostState :=
  let nextIndex := cqi + 1 in
  if nextIndex >=? Z.of_nat (length (questions s)) then
    let s := clear_timers s in
    {| questions := questions s;
       players := calculatePlayerCompletionTimes fetched (players s);
       currentQuestionIndex := currentQuestionIndex s;
       timeLeft := timeLeft s;
       showResults := showResults s;
       gameEnded := true;
       isCalculatingResults := isCalculatingResults s;
       tally := tally s;
       isPolling := isPolling s;
       pollingRef := pollingRef s;
       timerRef := timerRef s;
       session := if update_ok
                  then {| host_id := host_id (session s);
                          status := "completed";
                          current_question_index := None |}
                  else session s;
       sent := sent s ++ [game_ended];
       scheduled := scheduled s |}
  else
    let s := clear_timers s in
    {| questions := questions s;
       players := players s;
       currentQuestionIndex := nextIndex;
       timeLeft := Some 0;
       showResults := false;
       gameEnded := gameEnded s;
       isCalculatingResults := false;
       tally := tally s;
       isPolling := isPolling s;
       pollingRef := pollingRef s;
       timerRef := timerRef s;
       session := if update_ok
                  then {| host_id := host_id (session s);
                          status := status (session s);
                          current_question_index := Some nextIndex |}
                  else session s;
       sent := sent s ++ [question_changed nextIndex];
       scheduled :=
         match js_index (questions s) nextIndex with
         | Some q => scheduled s ++ [(nextIndex, Some (time_limit q))]
         | None => scheduled s
         end |}.

(** The oldest [startTimer] call waiting in a [setTimeout] runs. *)
Definition run_scheduled (s : HostState) : HostState :=
  match scheduled s with
  | [] => s
  | (questionIndex, seconds) :: rest =>
    startTimer questionIndex seconds
      {| questions := questions s;
         players := players s;
         currentQuestionIndex := currentQuestionIndex s;
         timeLeft := timeLeft s;
         showResults := showResults s;
         gameEnded := gameEnded s;
         isCalculatingResults := isCalculatingResults s;
         tally := tally s;
         isPolling := isPolling s;
         pollingRef := pollingRef s;
         timerRef := timerRef s;
         session := session s;
         sent := sent s;
         scheduled := rest |}
  end.

(** The "Next Question" button is rendered in the results view only:
    [showResults && timeLeft === 0]. *)
Definition next_button_shown (s : HostState) : bool :=
  showResults s && bool_decide (timeLeft s = Some 0).

(** ** Loading a session *)

Record PlayerRow := {
  pr_id : string;
  player_name : string
}.

(** What [fetchGameData] reads from the store. *)
Record Store := {
  game_sessions : option SessionRow;
  stored_questions : list Question;
  game_players : list PlayerRow;
  game_answers : list Answer
}.

Definition formattedPlayers (playersData : list PlayerRow) : list Player :=
  map (fun player =>
         {| id := pr_id player;
            name := player_name player;
            score := 0;
            avatar := "https://api.dicebear.com/7.x/avataaars/svg?seed="
                        +:+ player_name player;
            totalCompletionTime := Some 0 |}) playersData.

(** [fetchGameData], run on mount from the initial state.  [None]: the
    session could not be read or the user is not its host, and the screen is
    left.  For a session in progress the timer is restarted by the call
    [startTimer(question.time_limit)], whose one argument binds
    [questionIndex] and leaves [seconds] undefined; the call runs in the
    closure of the first render, as [fetchGameData] does, and so looks the
    question up among the questions of that render. *)
Definition fetchGameData (st : Store) (user : option string) : option HostState :=
  match game_sessions st with
  | None => None
  | Some sessionData =>
    if negb (bool_decide (user = Some (host_id sessionData))) then None else
    let questionsWithOptions := stored_questions st in
    let loaded (idx : Z) :=
      {| questions := questionsWithOptions;
         players := formattedPlayers (game_players st);
         currentQuestionIndex := idx;
         timeLeft := Some 0;
         showResults := false;
         gameEnded := false;
         isCalculatingResults := false;
         tally := {| answerStats := ∅; totalAnswers := 0 |};
         isPolling := false;
         pollingRef := None;
         timerRef := None;
         session := sessionData;
         sent := [];
         scheduled := [] |} in
    match current_question_index sessionData with
    | None => Some (loaded (-1))
    | Some idx =>
      if (0 <=? idx) && (idx <? Z.of_nat (length questionsWithOptions)) then
        match js_index questionsWithOptions idx with
        | Some question =>
          Some (startTimer_in first_render_questions (time_limit question) None
                  (loaded idx))
        | None => Some (loaded idx)
        end
      else Some (loaded idx)
    end
  end.

(** ** Runs *)

(** The "End Quiz" button of the results view. *)
Definition endQuiz (fetched : option (list Answer)) (s : HostState) : HostState :=
  {| questions := questions s;
     players := calculatePlayerCompletionTimes fetched (players s);
     currentQuestionIndex := currentQuestionIndex s;
     timeLeft := timeLeft s;
     showResults := showResults s;
     gameEnded := true;
     isCalculatingResults := isCalculatingResults s;
     tally := tally s;
     isPolling := isPolling s;
     pollingRef := pollingRef s;
     timerRef := timerRef s;
     session := session s;
     sent := sent s;
     scheduled := scheduled s |}.

(** A handler that writes the tally only. *)
Definition with_tally (t : Tally) (s : HostState) : HostState :=
  {| questions := questions s;
     players := players s;
     currentQuestionIndex := currentQuestionIndex s;
     timeLeft := timeLeft s;
     showResults := showResults s;
     gameEnded := gameEnded s;
     isCalculatingResults := isCalculatingResults s;
     tally := t;
     isPolling := isPolling s;
     pollingRef := pollingRef s;
     timerRef := timerRef s;
     session := session s;
     sent := sent s;
     scheduled := scheduled s |}.

(** What can happen to a loaded host screen: the host's buttons, the timers
    and the notifications, each with what it reads from outside (the value of
    [currentQuestionIndex] in its closure, the rows the store returns, the
    answer of the store to an update). *)
Inductive HostEvent :=
| start_clicked (update_ok : bool)
| interval_fired
| results_fetched (cqi questionIndex : Z) (fetched : option (list Answer))
| next_clicked (cqi : Z) (update_ok : bool) (fetched : option (list Answer))
| end_clicked (fetched : option (list Answer))
| timeout_fired
| answer_inserted (cqi : Z) (answer : Answer)
| answer_submitted (cqi : Z) (payload : AnswerSubmitted)
| stats_refreshed (cqi questionIndex : Z) (fetched : option (list Answer)).

Definition step (s : HostState) (e : HostEvent) : HostState :=
  match e with
  | start_clicked update_ok => startGame update_ok s
  | interval_fired => tick s
  | results_fetched cqi questionIndex fetched =>
    show_results cqi questionIndex fetched s
  | next_clicked cqi update_ok fetched => nextQuestion cqi update_ok fetched s
  | end_clicked fetched => endQuiz fetched s
  | timeout_fired => run_scheduled s
  | answer_inserted cqi answer => on_answer_insert cqi answer s
  | answer_submitted cqi payload =>
    with_tally (on_answer_submitted cqi payload (tally s)) s
  | stats_refreshed cqi questionIndex fetched =>
    with_tally (refreshAnswerStats (questions s) cqi questionIndex fetched (tally s)) s
  end.

(** The host screen after a sequence of events. *)
Definition run (events : list HostEvent) (s : HostState) : HostState :=
  foldl step s events.

(** The insert notifications among the events, in the order of delivery. *)
Definition inserted (events : list HostEvent) : list Answer :=
  omap (fun e => match e with
                 | answer_inserted _ answer => Some answer
                 | _ => None
                 end) events.

(** How many of the given answers are correct answers of the player. *)
Definition correct_answers_of (pid : string) (answers : list Answer) : Z :=
  Z.of_nat (length (List.filter
                      (fun a => is_correct a && String.eqb pid (player_id a))
                      answers)).

(** What a host finds in the store when it (re)loads the session that [s]
    has persisted. *)
Definition persisted (s : HostState) (rows : list Answer) : Store :=
  {| game_sessions := Some (session s);
     stored_questions := questions s;
     game_players :=
       map (fun p => {| pr_id := id p; player_name := name p |}) (players s);
     game_answers := rows |}.

(** ** What the host screen renders *)

(** The branch of the render of [GamePlay] that a loaded state reaches: the
    game-over screen, the start screen, and for a question either its
    results or the question itself.  (The summary, which the game-over
    screen opens, is a component of its own.) *)
Inductive Screen := GameOver | StartScreen | ResultsView | QuestionView.

Definition screen (s : HostState) : Screen :=
  if gameEnded s then GameOver
  else if currentQuestionIndex s =? -1 then StartScreen
  else if showResults s && bool_decide (timeLeft s = Some 0) then ResultsView
  else QuestionView.

(** The event stems from a render that the state has met.  The start
    button is clicked on the start screen, or once more before its first
    click has taken effect, so that the host is at the first question at
    most; a click on "Next" runs [nextQuestion] with the index of the render
    it was made in, which is the host's index or, for a further click made
    before the button of that render has gone, the index before it.  Timers
    and notifications come whenever they come. *)
Definition from_render (s : HostState) (e : HostEvent) : bool :=
  match e with
  | start_clicked _ => currentQuestionIndex s <=? 0
  | next_clicked cqi _ _ =>
    (cqi =? currentQuestionIndex s) || (cqi + 1 =? currentQuestionIndex s)
  | _ => true
  end.

(** Every event of the sequence stems from a render that the state it
    arrives in has met. *)
Fixpoint from_render_all (events : list HostEvent) (s : HostState) : bool :=
  match events with
  | [] => true
  | e :: rest => from_render s e && from_render_all rest (step s e)
  end.

(** The store accepts every update of the session row that [nextQuestion]
    asks for. *)
Definition updates_accepted (events : list HostEvent) : bool :=
  forallb (fun e => match e with
                    | next_clicked _ update_ok _ => update_ok
                    | _ => true
                    end) events.

(** The index is that of the start screen or of one of the questions. *)
Definition index_in_range (s : HostState) : Prop :=
  currentQuestionIndex s = -1 \/
  0 <= currentQuestionIndex s < Z.of_nat (length (questions s)).

(** The stored index is the host's index, or it is null with the host on
    the start screen or past the end of the game. *)
Definition row_agrees (s : HostState) : Prop :=
  current_question_index (session s) = Some (currentQuestionIndex s) \/
  (current_question_index (session s) = None /\
   (currentQuestionIndex s = -1 \/ gameEnded s = true)).

(** The countdown, if there is one, holds no number. *)
Definition never_expires (s : HostState) : Prop :=
  match timerRef s with
  | None => True
  | Some cd => cd_currentTime cd = None
  end.

(** A [time_up] message. *)
Definition is_time_up (b : Broadcast) : bool :=
  match b with
  | time_up _ => true
  | _ => false
  end.

(** A tally with a zero for each option of the question and no answers. *)
Definition zero_tally (questionIndex : Z) (q : Question) : Tally :=
  {| answerStats := init_stats questionIndex (options q); totalAnswers := 0 |}.

(** No count is negative and the counts do not exceed the total. *)
Definition tally_sound (t : Tally) : Prop :=
  (forall k v, answerStats t !! k = Some v -> 0 <= v) /\
  sum_counts (answerStats t) <= totalAnswers t.

(** The same player, with a score that is not lower. *)
Definition kept_player (p p' : Player) : Prop :=
  id p' = id p /\ name p' = name p /\ avatar p' = avatar p /\ score p <= score p'.

(** ** Leaderboard order *)

(** The comparator handed to [sort] by both leaderboards. *)
Definition leaderboard_cmp (a b : Player) : Z :=
  if negb (score b =? score a) then score b - score a
  else or_zero (totalCompletionTime a) - or_zero (totalCompletionTime b).

(** [Array.prototype.sort] is a stable sort; with a comparator it puts [a]
    before [b] when [cmp a b < 0] and keeps their order when [cmp a b = 0].
    The model inserts each element, from the last to the first, in front of
    the first element it does not have to follow. *)
Fixpoint js_insert {A} (cmp : A -> A -> Z) (x : A) (l : list A) : list A :=
  match l with
  | [] => [x]
  | y :: l' => if cmp x y <=? 0 then x :: l else y :: js_insert cmp x l'
  end.

Definition js_sort {A} (cmp : A -> A -> Z) (l : list A) : list A :=
  foldr (js_insert cmp) [] l.

(** [sortedPlayers] of the game-over screen, every entry of which is shown. *)
Definition sortedPlayers (board : list Player) : list Player :=
  js_sort leaderboard_cmp board.

(** The leaderboard under the per-question results: [.sort(...).slice(0, 5)]. *)
Definition results_leaderboard (board : list Player) : list Player :=
  firstn 5 (js_sort leaderboard_cmp board).

(** [a] is ranked before, or level with, [b]. *)
Definition ranks_before (a b : Player) : Prop :=
  score b < score a \/
  (score a = score b /\
   or_zero (totalCompletionTime a) <= or_zero (totalCompletionTime b)).

(** Tied on both keys. *)
Definition tied (a b : Player) : bool :=
  (score a =? score b) &&
  (or_zero (totalCompletionTime a) =? or_zero (totalCompletionTime b)).

(** The comparator of the leaderboard that [exportToCSV] of the game-over
    screen writes: by score only. *)
Definition csv_cmp (a b : Player) : Z := score b - score a.

(** [sortedPlayers] of [exportToCSV]. *)
Definition csvSortedPlayers (board : list Player) : list Player :=
  js_sort csv_cmp board.

(** The score is not lower. *)
Definition scores_before (a b : Player) : Prop := score b <= score a.

(** The seconds that the stored answers of a player add up to. *)
Definition time_total (pid : string) (rows : list Answer) : Z :=
  foldr (fun a acc =>
           if String.eqb (player_id a) pid then or_zero (time_taken a) + acc
           else acc) 0 rows.

(** ** Percentages *)

(** An integer as a JS number (exact below [2^53] in absolute value). *)
Definition num (z : Z) : float :=
  if z <? 0 then PrimFloat.opp (PrimFloat.of_uint63 (Uint63.of_Z (- z)))
  else PrimFloat.of_uint63 (Uint63.of_Z z).

(** [Math.round]: the nearest integer, the larger one on a tie; [NaN], the
    infinities and the zeros are returned as they are.  A finite nonzero
    double is [m * 2^e] up to sign, and the rounding is carried out on that
    exact value. *)
Definition Math_round (x : float) : float :=
  match Prim2SF x with
  | S754_finite sgn m e =>
    if 0 <=? e then x else
    let v := if sgn then Z.neg m else Z.pos m in
    let d := 2 ^ (- e) in
    let n := (2 * v + d) / (2 * d) in
    if (n =? 0) && sgn then neg_zero else num n
  | _ => x
  end.

(** [answerStats[uniqueKey] || 0] for an option of the current question. *)
Definition answerCount (stats : gmap string Z) (currentQuestionIndex : Z)
    (o : QOption) : Z :=
  default 0 (stats !! uniqueKey currentQuestionIndex (opt_id o)).

(** The percentage shown next to an option in the results view:
    [totalAnswers > 0 ? Math.round((answerCount / totalAnswers) * 100) : 0]. *)
Definition percentage (answerCount totalAnswers : Z) : float :=
  if totalAnswers >? 0
  then Math_round (PrimFloat.mul (PrimFloat.div (num answerCount) (num totalAnswers))
                                 (num 100))
  else num 0.

(** The integer that a JS number holds, if it holds one. *)
Definition shown_integer (x : float) : option Z :=
  match Prim2SF x with
  | S754_zero _ => Some 0
  | S754_finite sgn m e =>
    let v := if sgn then Z.neg m else Z.pos m in
    if 0 <=? e then Some (v * 2 ^ e)
    else if v mod 2 ^ (- e) =? 0 then Some (v / 2 ^ (- e)) else None
  | _ => None
  end.

(** [100 * count / total] rounded to the nearest integer in exact
    arithmetic, a tie going up. *)
Definition round_ratio (count total : Z) : Z :=
  (200 * count + total) / (2 * total).

(** The percentage shown is [round_ratio] for the given count and total
    (a decidable comparison, run over ranges of counts and totals below). *)
Definition percentage_agrees (count total : Z) : bool :=
  match shown_integer (percentage count total) with
  | Some n => n =? round_ratio count total
  | None => false
  end.

(** All counts [0 .. total] of all totals [1 .. bound]. *)
Definition percentage_agrees_upto (bound : nat) : bool :=
  forallb (fun total =>
             forallb (fun count =>
                        percentage_agrees (Z.of_nat count) (Z.of_nat total))
                     (seq 0 (S total)))
          (seq 1 bound).

(** ** Post-game summary ([fetchSummaryData]) *)

Module Summary.

Definition totalQuestions (qs : list Question) : Z := Z.of_nat (length qs).
Definition totalPlayers (ps : list Player) : Z := Z.of_nat (length ps).
Definition totalAnswers (allAnswers : list Answer) : Z :=
  Z.of_nat (length allAnswers).
Definition correctAnswers (allAnswers : list Answer) : Z :=
  Z.of_nat (length (List.filter is_correct allAnswers)).

(** [totalAnswers > 0 ? (correctAnswers / totalAnswers) * 100 : 0] *)
Definition accuracy_of (answers : list Answer) : float :=
  if totalAnswers answers >? 0
  then PrimFloat.mul (PrimFloat.div (num (correctAnswers answers))
                                    (num (totalAnswers answers))) (num 100)
  else num 0.

(** [overview.overallAccuracy] *)
Definition overallAccuracy (allAnswers : list Answer) : float :=
  Math_round (accuracy_of allAnswers).

(** [questionStats[index].accuracy] *)
Definition question_accuracy (allAnswers : list Answer) (index : Z) : float :=
  accuracy_of (List.filter (fun a => question_index a =? index) allAnswers).

(** [overview.averageScore] *)
Definition averageScore (ps : list Player) : float :=
  Math_round (PrimFloat.div (num (foldl (fun sum p => sum + score p) 0 ps))
                            (num (totalPlayers ps))).

(** [insights.participationRate] *)
Definition participationRate (qs : list Question) (ps : list Player)
    (allAnswers : list Answer) : float :=
  Math_round
    (PrimFloat.mul
       (PrimFloat.div (num (totalAnswers allAnswers))
                      (PrimFloat.mul (num (totalQuestions qs))
                                     (num (totalPlayers ps))))
       (num 100)).

End Summary.

(** ** Charts of the summary ([GameSummary]) *)

Module SummaryCharts.

(** An entry of [questionStats], as far as the overview and the charts read
    it (the answer distribution and the average time are left out). *)
Record QuestionStat := {
  questionIndex : Z;
  questionText : string;
  totalAnswers : Z;
  correctAnswers : Z;
  accuracy : float
}.

(** The entry that [fetchSummaryData] computes for the question at [index]. *)
Definition question_stat (allAnswers : list Answer) (index : nat)
    (question : Question) : QuestionStat :=
  let questionAnswers :=
    List.filter (fun a => question_index a =? Z.of_nat index) allAnswers in
  {| questionIndex := Z.of_nat index + 1;
     questionText := q_text question;
     totalAnswers := Z.of_nat (length questionAnswers);
     correctAnswers := Z.of_nat (length (List.filter is_correct questionAnswers));
     accuracy := Summary.accuracy_of questionAnswers |}.

(** [questions.map((question, index) => ...)] of [fetchSummaryData]. *)
Definition questionStats (qs : list Question) (allAnswers : list Answer)
  : list QuestionStat :=
  imap (question_stat allAnswers) qs.

(** The answer is one for a question of the quiz. *)
Definition for_a_question (n : nat) (a : Answer) : bool :=
  (0 <=? question_index a) && (question_index a <? Z.of_nat n).

(** [a >= b] on JS numbers. *)
Definition geb (a b : float) : bool := PrimFloat.leb b a.

Inductive Difficulty := Easy | Medium | Hard | VeryHard.

(** The difficulty written on the card of a question. *)
Definition difficulty (acc : float) : Difficulty :=
  if geb acc (num 80) then Easy
  else if geb acc (num 50) then Medium
  else if geb acc (num 30) then Hard
  else VeryHard.

(** The [questions] arrays of [difficultyRanges]. *)
Record DifficultyRanges := {
  easy : list QuestionStat;
  medium : list QuestionStat;
  hard : list QuestionStat;
  very_hard : list QuestionStat
}.

(** One round of the [forEach] that pushes each question on its range. *)
Definition push_question (ranges : DifficultyRanges) (q : QuestionStat)
  : DifficultyRanges :=
  if geb (accuracy q) (num 80) then
    {| easy := easy ranges ++ [q]; medium := medium ranges;
       hard := hard ranges; very_hard := very_hard ranges |}
  else if geb (accuracy q) (num 50) then
    {| easy := easy ranges; medium := medium ranges ++ [q];
       hard := hard ranges; very_hard := very_hard ranges |}
  else if geb (accuracy q) (num 30) then
    {| easy := easy ranges; medium := medium ranges;
       hard := hard ranges ++ [q]; very_hard := very_hard ranges |}
  else
    {| easy := easy ranges; medium := medium ranges;
       hard := hard ranges; very_hard := very_hard ranges ++ [q] |}.

Definition difficultyRanges (stats : list QuestionStat) : DifficultyRanges :=
  foldl push_question
        {| easy := []; medium := []; hard := []; very_hard := [] |} stats.

(** The question carries the given difficulty on its card. *)
Definition has_difficulty (d : Difficulty) (q : QuestionStat) : bool :=
  match d, difficulty (accuracy q) with
  | Easy, Easy | Medium, Medium | Hard, Hard | VeryHard, VeryHard => true
  | _, _ => false
  end.

(** [Math.max(...xs)]: minus infinity for no argument, [NaN] as soon as an
    argument is [NaN]. *)
Definition Math_max (xs : list float) : float :=
  foldl (fun acc x =>
           if PrimFloat.is_nan acc || PrimFloat.is_nan x then nan
           else if PrimFloat.ltb acc x then x else acc)
        neg_infinity xs.

(** The [count] fields of [scoreRanges]. *)
Record ScoreRanges := {
  excellent : Z;
  good : Z;
  average : Z;
  below_average : Z
}.

(** One round of the [forEach] over the players' scores, with the ratio
    [maxScore > 0 ? player.score / maxScore : 0] and the bounds 0.8, 0.6
    and 0.4. *)
Definition count_score (maxScore : float) (ranges : ScoreRanges) (player_score : Z)
  : ScoreRanges :=
  let percentage :=
    if PrimFloat.ltb (num 0) maxScore
    then PrimFloat.div (num player_score) maxScore
    else num 0 in
  if geb percentage 0x1.999999999999ap-1%float then
    {| excellent := excellent ranges + 1; good := good ranges;
       average := average ranges; below_average := below_average ranges |}
  else if geb percentage 0x1.3333333333333p-1%float then
    {| excellent := excellent ranges; good := good ranges + 1;
       average := average ranges; below_average := below_average ranges |}
  else if geb percentage 0x1.999999999999ap-2%float then
    {| excellent := excellent ranges; good := good ranges;
       average := average ranges + 1; below_average := below_average ranges |}
  else
    {| excellent := excellent ranges; good := good ranges;
       average := average ranges; below_average := below_average ranges + 1 |}.

(** [scoreRanges] for the scores of the players of the summary. *)
Definition scoreRanges (scores : list Z) : ScoreRanges :=
  foldl (count_score (Math_max (map num scores)))
        {| excellent := 0; good := 0; average := 0; below_average := 0 |}
        scores.

(** The sum of a list of integers. *)
Definition sum_Z (l : list Z) : Z := foldr Z.add 0 l.

End SummaryCharts.

(** ** Quiz editor (CreateQuiz.tsx) *)

Module CreateQuiz.

Record Option := {
  o_id : string;
  o_text : string;
  isCorrect : bool
}.

Record Question := {
  q_id : string;
  q_text : string;
  timeLimit : Z;
  options : list Option
}.

Record QuizData := {
  title : string;
  description : string;
  questions : list Question
}.

(** A text is held as the bytes of its UTF-8 encoding.  The code points
    that [String.prototype.trim] removes: the white space and the line
    terminators of ECMAScript, that is tab, line feed, vertical tab, form
    feed, carriage return, space, no-break space, the other space
    separators of Unicode, the line and paragraph separators and the
    byte-order mark. *)
Definition white_space : list N :=
  [ 0x09; 0x0A; 0x0B; 0x0C; 0x0D; 0x20; 0xA0; 0x1680;
    0x2000; 0x2001; 0x2002; 0x2003; 0x2004; 0x2005; 0x2006; 0x2007;
    0x2008; 0x2009; 0x200A; 0x2028; 0x2029; 0x202F; 0x205F; 0x3000;
    0xFEFF ]%N.

(** The UTF-8 encoding of a code point below [0x10000]. *)
Definition utf8 (cp : N) : string :=
  if (cp <? 0x80)%N then
    String (ascii_of_N cp) EmptyString
  else if (cp <? 0x800)%N then
    String (ascii_of_N (0xC0 + cp / 0x40))
      (String (ascii_of_N (0x80 + cp mod 0x40)) EmptyString)
  else
    String (ascii_of_N (0xE0 + cp / 0x1000))
      (String (ascii_of_N (0x80 + (cp / 0x40) mod 0x40))
         (String (ascii_of_N (0x80 + cp mod 0x40)) EmptyString)).

(** The bytes are the encoding of a white-space code point. *)
Definition is_space (bytes : string) : bool :=
  existsb (fun cp => String.eqb (utf8 cp) bytes) white_space.

Definition reverse (s : string) : string :=
  string_of_list_ascii (List.rev (list_ascii_of_string s)).

(** The text without the white space it starts with.  A white-space code
    point takes one to three bytes; [order] is the identity for a text read
    from its start, and [reverse] for a text read from its end. *)
Fixpoint strip (order : string -> string) (s : string) : string :=
  match s with
  | EmptyString => EmptyString
  | String c1 r1 =>
    if is_space (String c1 EmptyString) then strip order r1 else
    match r1 with
    | EmptyString => s
    | String c2 r2 =>
      if is_space (order (String c1 (String c2 EmptyString)))
      then strip order r2 else
      match r2 with
      | EmptyString => s
      | String c3 r3 =>
        if is_space (order (String c1 (String c2 (String c3 EmptyString))))
        then strip order r3 else s
      end
    end
  end.

Definition trimStart (s : string) : string := strip (fun bytes => bytes) s.

Definition trimEnd (s : string) : string := reverse (strip reverse (reverse s)).

Definition trim (s : string) : string := trimEnd (trimStart s).

(** [!s.trim()] *)
Definition blank (s : string) : bool := String.eqb (trim s) "".

(** [setCorrectOption(questionId, optionId)], the updater handed to
    [setQuizData]. *)
Definition setCorrectOption (questionId optionId : string) (prev : QuizData)
  : QuizData :=
  {| title := title prev;
     description := description prev;
     questions :=
       map (fun q =>
              if String.eqb (q_id q) questionId
              then {| q_id := q_id q;
                      q_text := q_text q;
                      timeLimit := timeLimit q;
                      options :=
                        map (fun opt =>
                               {| o_id := o_id opt;
                                  o_text := o_text opt;
                                  isCorrect := String.eqb (o_id opt) optionId |})
                            (options q) |}
              else q)
           (questions prev) |}.

Definition correctOptions (question : Question) : list Option :=
  List.filter isCorrect (options question).

(** The body of the loop of [validateQuiz] over the questions, which
    returns [false] at the first check that fails. *)
Fixpoint validate_questions (qs : list Question) : bool :=
  match qs with
  | [] => true
  | question :: rest =>
    if blank (q_text question) then false
    else if (timeLimit question <? 5) || (timeLimit question >? 120) then false
    else if (length (options question) <? 2)%nat then false
    else if (0 <? length (List.filter (fun opt => blank (o_text opt))
                                      (options question)))%nat then false
    else if (length (correctOptions question) =? 0)%nat then false
    else validate_questions rest
  end.

Definition validateQuiz (quizData : QuizData) : bool :=
  if blank (title quizData) then false
  else if (length (questions quizData) =? 0)%nat then false
  else validate_questions (questions quizData).

(** Requests that [saveQuiz] sends to the store. *)
Inductive Write :=
| update_quiz (quizId title description : string)
| delete_questions (quizId : string)
| insert_quiz (title description user_id : string)
| insert_question (text : string) (time_limit : Z)
| insert_options (rows : list (string * bool)).

Definition question_writes (question : Question) : list Write :=
  [ insert_question (trim (q_text question)) (timeLimit question);
    insert_options
      (map (fun option => (trim (o_text option), isCorrect option))
           (options question)) ].

(** The error of the request is read, and thrown when there is one.  The
    delete of the old questions is awaited without a look at its outcome. *)
Definition error_read (w : Write) : bool :=
  match w with
  | delete_questions _ => false
  | _ => true
  end.

(** The requests are sent one after the other, the [n]-th of them being
    answered without error (and, for an insert that selects the new id, with
    an id) when [accepted n].  A refused request whose error is read makes
    [saveQuiz] throw, and what follows it is not sent. *)
Fixpoint send (accepted : nat -> bool) (n : nat) (requests : list Write)
  : list Write :=
  match requests with
  | [] => []
  | w :: rest =>
    if accepted n || negb (error_read w)
    then w :: send accepted (S n) rest
    else [w]
  end.

(** [isEditing && quizId]: the id of the quiz being edited, which is a
    route parameter that is not empty. *)
Definition edited (editing : option string) : option string :=
  match editing with
  | Some quizId => if String.eqb quizId "" then None else Some quizId
  | None => None
  end.

(** The requests of [saveQuiz] in the order in which it sends them: those
    for the quiz, then those of each question. *)
Definition requests (editing : option string) (user_id : string)
    (quizData : QuizData) : list Write :=
  match edited editing with
  | Some quizId =>
    [ update_quiz (trim quizId) (trim (title quizData))
        (trim (description quizData));
      delete_questions (trim quizId) ]
  | None =>
    [ insert_quiz (trim (title quizData)) (trim (description quizData))
        user_id ]
  end ++ concat (map question_writes (questions quizData)).

(** [saveQuiz] as the list of requests it sends.  [editing] is the [quizId]
    of the route, if any; [user] the id of the signed-in user, if any (an
    empty id counts as none); [accepted] what the store answers. *)
Definition saveQuiz (editing : option string) (user : option string)
    (accepted : nat -> bool) (quizData : QuizData) : list Write :=
  if negb (validateQuiz quizData) then [] else
  match user with
  | None => []
  | Some user_id =>
    if String.eqb user_id "" then [] else
    send accepted 0 (requests editing user_id quizData)
  end.

(** The number of options of a question that are marked correct. *)
Definition correct_count (question : Question) : nat :=
  length (correctOptions question).

End CreateQuiz.

(** ** Editing a quiz (the other handlers of CreateQuiz.tsx) *)

Module QuizEditor.
Import CreateQuiz.

(** The question that the editor starts with and that [addQuestion] adds:
    empty, 30 seconds, two empty options.  The ids are what [generateId]
    returns. *)
Definition newQuestion (qid oid1 oid2 : string) : Question :=
  {| q_id := qid;
     q_text := "";
     timeLimit := 30;
     options := [ {| o_id := oid1; o_text := ""; isCorrect := false |};
                  {| o_id := oid2; o_text := ""; isCorrect := false |} ] |}.

(** The initial value of [quizData]. *)
Definition initialQuiz (qid oid1 oid2 : string) : QuizData :=
  {| title := ""; description := "";
     questions := [newQuestion qid oid1 oid2] |}.

Definition updateTitle (t : string) (prev : QuizData) : QuizData :=
  {| title := t; description := description prev; questions := questions prev |}.

Definition updateDescription (d : string) (prev : QuizData) : QuizData :=
  {| title := title prev; description := d; questions := questions prev |}.

Definition addQuestion (qid oid1 oid2 : string) (prev : QuizData) : QuizData :=
  {| title := title prev;
     description := description prev;
     questions := questions prev ++ [newQuestion qid oid1 oid2] |}.

(** [removeQuestion]: the last question is not removed. *)
Definition removeQuestion (questionId : string) (quizData : QuizData) : QuizData :=
  if (length (questions quizData) <=? 1)%nat then quizData else
  {| title := title quizData;
     description := description quizData;
     questions := List.filter (fun q => negb (String.eqb (q_id q) questionId))
                              (questions quizData) |}.

(** A field of a question together with its new value:
    the [field] and [value] of [updateQuestion]. *)
Inductive QuestionField :=
| set_q_id (v : string)
| set_q_text (v : string)
| set_timeLimit (v : Z)
| set_options (v : list Option).

Definition with_field (q : Question) (f : QuestionField) : Question :=
  match f with
  | set_q_id v =>
    {| q_id := v; q_text := q_text q; timeLimit := timeLimit q; options := options q |}
  | set_q_text v =>
    {| q_id := q_id q; q_text := v; timeLimit := timeLimit q; options := options q |}
  | set_timeLimit v =>
    {| q_id := q_id q; q_text := q_text q; timeLimit := v; options := options q |}
  | set_options v =>
    {| q_id := q_id q; q_text := q_text q; timeLimit := timeLimit q; options := v |}
  end.

Definition updateQuestion (questionId : string) (f : QuestionField)
    (prev : QuizData) : QuizData :=
  {| title := title prev;
     description := description prev;
     questions := map (fun q => if String.eqb (q_id q) questionId
                                then with_field q f else q)
                      (questions prev) |}.

(** The value that the time-limit input hands to [updateQuestion]:
    [parseInt(e.target.value) || 30], [None] being a text that is no
    number. *)
Definition timeLimit_input (parsed : option Z) : Z :=
  match parsed with
  | Some v => if v =? 0 then 30 else v
  | None => 30
  end.

(** [addOption]: no option is added to a question that has ten. *)
Definition addOption (questionId newId : string) (quizData : QuizData) : QuizData :=
  match List.find (fun q => String.eqb (q_id q) questionId) (questions quizData) with
  | None => quizData
  | Some question =>
    if (10 <=? length (options question))%nat then quizData else
    let newOption := {| o_id := newId; o_text := ""; isCorrect := false |} in
    {| title := title quizData;
       description := description quizData;
       questions :=
         map (fun q => if String.eqb (q_id q) questionId
                       then {| q_id := q_id q; q_text := q_text q;
                               timeLimit := timeLimit q;
                               options := options q ++ [newOption] |}
                       else q)
             (questions quizData) |}
  end.

(** [removeOption]: no option is removed from a question that has two. *)
Definition removeOption (questionId optionId : string) (quizData : QuizData)
  : QuizData :=
  match List.find (fun q => String.eqb (q_id q) questionId) (questions quizData) with
  | None => quizData
  | Some question =>
    if (length (options question) <=? 2)%nat then quizData else
    {| title := title quizData;
       description := description quizData;
       questions :=
         map (fun q => if String.eqb (q_id q) questionId
                       then {| q_id := q_id q; q_text := q_text q;
                               timeLimit := timeLimit q;
                               options :=
                                 List.filter
                                   (fun opt => negb (String.eqb (o_id opt) optionId))
                                   (options q) |}
                       else q)
             (questions quizData) |}
  end.

(** A field of an option together with its new value:
    the [field] and [value] of [updateOption]. *)
Inductive OptionField :=
| set_o_id (v : string)
| set_o_text (v : string)
| set_isCorrect (v : bool).

Definition with_option_field (opt : Option) (f : OptionField) : Option :=
  match f with
  | set_o_id v => {| o_id := v; o_text := o_text opt; isCorrect := isCorrect opt |}
  | set_o_text v => {| o_id := o_id opt; o_text := v; isCorrect := isCorrect opt |}
  | set_isCorrect v => {| o_id := o_id opt; o_text := o_text opt; isCorrect := v |}
  end.

Definition updateOption (questionId optionId : string) (f : OptionField)
    (prev : QuizData) : QuizData :=
  {| title := title prev;
     description := description prev;
     questions :=
       map (fun q => if String.eqb (q_id q) questionId
                     then {| q_id := q_id q; q_text := q_text q;
                             timeLimit := timeLimit q;
                             options :=
                               map (fun opt => if String.eqb (o_id opt) optionId
                                               then with_option_field opt f
                                               else opt)
                                   (options q) |}
                     else q)
           (questions prev) |}.

(** What the controls of the editor do: each calls one handler, the inputs
    of a question with the field they are for. *)
Inductive EditorEvent :=
| title_typed (t : string)
| description_typed (d : string)
| question_added (qid oid1 oid2 : string)
| question_removed (questionId : string)
| question_text_typed (questionId : string) (t : string)
| time_limit_typed (questionId : string) (parsed : option Z)
| option_added (questionId newId : string)
| option_removed (questionId optionId : string)
| option_text_typed (questionId optionId : string) (t : string)
| correct_chosen (questionId optionId : string).

Definition edit (quiz : QuizData) (e : EditorEvent) : QuizData :=
  match e with
  | title_typed t => updateTitle t quiz
  | description_typed d => updateDescription d quiz
  | question_added qid oid1 oid2 => addQuestion qid oid1 oid2 quiz
  | question_removed questionId => removeQuestion questionId quiz
  | question_text_typed questionId t =>
    updateQuestion questionId (set_q_text t) quiz
  | time_limit_typed questionId parsed =>
    updateQuestion questionId (set_timeLimit (timeLimit_input parsed)) quiz
  | option_added questionId newId => addOption questionId newId quiz
  | option_removed questionId optionId => removeOption questionId optionId quiz
  | option_text_typed questionId optionId t =>
    updateOption questionId optionId (set_o_text t) quiz
  | correct_chosen questionId optionId => setCorrectOption questionId optionId quiz
  end.

(** The ids that an event brings along are new: the id of an added question
    is the id of no question, its two option ids differ, and the id of an
    added option is not an id of an option of its question. *)
Definition fresh_for (quiz : QuizData) (e : EditorEvent) : Prop :=
  match e with
  | question_added qid oid1 oid2 =>
    ~ In qid (map q_id (questions quiz)) /\ oid1 <> oid2
  | option_added questionId newId =>
    forall q, In q (questions quiz) -> q_id q = questionId ->
              ~ In newId (map o_id (options q))
  | _ => True
  end.

(** The events come one after the other, each with new ids. *)
Fixpoint fresh_all (events : list EditorEvent) (quiz : QuizData) : Prop :=
  match events with
  | [] => True
  | e :: rest => fresh_for quiz e /\ fresh_all rest (edit quiz e)
  end.

(** A question as the editor keeps it: two to ten options with distinct
    ids, at most one of them correct. *)
Definition question_kept (q : Question) : Prop :=
  (2 <= length (options q) <= 10)%nat /\
  List.NoDup (map o_id (options q)) /\
  (correct_count q <= 1)%nat.

(** A quiz as the editor keeps it: at least one question, distinct question
    ids, every question as above. *)
Definition quiz_kept (quiz : QuizData) : Prop :=
  questions quiz <> [] /\
  List.NoDup (map q_id (questions quiz)) /\
  Forall question_kept (questions quiz).

(** [getOptionColor]: [colors[index % colors.length]]. *)
Definition colors : list string :=
  [ "bg-red-500"; "bg-blue-500"; "bg-green-500"; "bg-yellow-500";
    "bg-purple-500"; "bg-pink-500"; "bg-indigo-500"; "bg-teal-500";
    "bg-orange-500"; "bg-gray-500" ].

Definition getOptionColor (index : Z) : option string :=
  js_index colors (Z.rem index (Z.of_nat (length colors))).

(** The quiz after a series of events. *)
Definition edits (events : list EditorEvent) (quiz : QuizData) : QuizData :=
  foldl edit quiz events.

(** What [validateQuiz] asks of a question. *)
Definition question_valid (q : Question) : Prop :=
  blank (q_text q) = false /\
  5 <= timeLimit q <= 120 /\
  (2 <= length (options q))%nat /\
  Forall (fun opt => blank (o_text opt) = false) (options q) /\
  (1 <= correct_count q)%nat.

(** What [validateQuiz] asks of a quiz. *)
Definition quiz_valid (quiz : QuizData) : Prop :=
  blank (title quiz) = false /\
  questions quiz <> [] /\
  Forall question_valid (questions quiz).

(** A request whose content is fit to be stored. *)
Definition write_valid (w : Write) : Prop :=
  match w with
  | update_quiz _ t _ => t <> ""
  | delete_questions _ => True
  | insert_quiz t _ _ => t <> ""
  | insert_question text time_limit => text <> "" /\ 5 <= time_limit <= 120
  | insert_options rows =>
    (2 <= length rows)%nat /\
    Forall (fun row => fst row <> "") rows /\
    Exists (fun row => snd row = true) rows
  end.

(** The number of requests of [saveQuiz] before those of the questions. *)
Definition quiz_writes (editing : option string) : nat :=
  match CreateQuiz.edited editing with Some _ => 2%nat | None => 1%nat end.

(** A session of the editor: a third option, the first option chosen as
    correct, a second question, the chosen option removed, the second
    question removed. *)
Definition sample_edits : list EditorEvent :=
  [ option_added "q1" "c";
    correct_chosen "q1" "a";
    question_added "q2" "d" "e";
    time_limit_typed "q2" None;
    option_removed "q1" "a";
    question_removed "q2" ].

(** A question with three options of which the first is chosen. *)
Definition chosen_quiz : QuizData :=
  edits [option_added "q1" "c"; correct_chosen "q1" "a"] (initialQuiz "q1" "a" "b").

End QuizEditor.

(** ** Sample sessions *)

(** Scenario A of the specification: options [X] and [Y], [X] correct. *)
Definition sample_question : Question :=
  {| q_id := "question-1";
     q_text := "X or Y?";
     time_limit := 30;
     options := [ {| opt_id := "X"; opt_text := "x"; opt_is_correct := true |};
                  {| opt_id := "Y"; opt_text := "y"; opt_is_correct := false |} ] |}.

Definition sample_row (pid oid : string) (correct : bool) : Answer :=
  {| player_id := pid;
     question_index := 0;
     option_id := oid;
     is_correct := correct;
     time_taken := Some 4 |}.

Definition sample_rows : list Answer :=
  [ sample_row "p1" "X" true; sample_row "p2" "X" true; sample_row "p3" "Y" false ].

Definition sample_player (pid : string) (pts : Z) (secs : Z) : Player :=
  {| id := pid;
     name := pid;
     score := pts;
     avatar := "";
     totalCompletionTime := Some secs |}.

Definition sample_players : list Player :=
  [ sample_player "p1" 0 0; sample_player "p2" 0 0; sample_player "p3" 0 0 ].

Definition empty_tally : Tally := {| answerStats := ∅; totalAnswers := 0 |}.

(** A stored row whose [option_id] is not an option of the question. *)
Definition stray_rows : list Answer := [ sample_row "p1" "Z" false ].

(** A session in the lobby, with the sample question and three players. *)
Definition lobby_store : Store :=
  {| game_sessions := Some {| host_id := "host-1";
                              status := "waiting";
                              current_question_index := None |};
     stored_questions := [sample_question];
     game_players := [ {| pr_id := "p1"; player_name := "Ann" |};
                       {| pr_id := "p2"; player_name := "Bob" |};
                       {| pr_id := "p3"; player_name := "Cyd" |} ];
     game_answers := [] |}.

(** The same session with its first question in progress and the three
    answers of scenario A stored. *)
Definition active_store : Store :=
  {| game_sessions := Some {| host_id := "host-1";
                              status := "active";
                              current_question_index := Some 0 |};
     stored_questions := stored_questions lobby_store;
     game_players := game_players lobby_store;
     game_answers := sample_rows |}.

(** The host state once a session in the lobby is loaded by its host. *)
Definition lobby_of (qs : list Question) : HostState :=
  {| questions := qs;
     players := formattedPlayers (game_players lobby_store);
     currentQuestionIndex := -1;
     timeLeft := Some 0;
     showResults := false;
     gameEnded := false;
     isCalculatingResults := false;
     tally := empty_tally;
     isPolling := false;
     pollingRef := None;
     timerRef := None;
     session := {| host_id := "host-1";
                   status := "waiting";
                   current_question_index := None |};
     sent := [];
     scheduled := [] |}.

Definition sample_lobby : HostState := lobby_of (stored_questions lobby_store).

(** The first question played through: the game is started, the three
    answers of scenario A are notified, the time runs out, the results are
    fetched and the host ends the quiz. *)
Definition sample_events : list HostEvent :=
  start_clicked true
  :: map (answer_inserted 0) sample_rows
  ++ repeat interval_fired 30
  ++ [results_fetched 0 0 (Some sample_rows); end_clicked (Some sample_rows)].

Definition three_questions : list Question :=
  [sample_question; sample_question; sample_question].

(** A quiz of three questions, the first of which has run out of time and
    shows its results. *)
Definition first_results : HostState :=
  show_results 0 0 (Some sample_rows)
    (Nat.iter 30 tick (startGame true (lobby_of three_questions))).

(** Two correct answers to the first question, the later one given
    faster. *)
Definition tied_rows : list Answer :=
  [ {| player_id := "p1"; question_index := 0; option_id := "X";
       is_correct := true; time_taken := Some 9 |};
    {| player_id := "p2"; question_index := 0; option_id := "X";
       is_correct := true; time_taken := Some 4 |} ].

(** The results of the first of three questions, with the two answers
    notified. *)
Definition tied_results : HostState :=
  run (map (answer_inserted first_render_index) tied_rows) first_results.

(** The only question of the sample session played through, and "Next"
    clicked under its results. *)
Definition played_to_end : list HostEvent :=
  start_clicked true
  :: map (answer_inserted first_render_index) sample_rows
  ++ repeat interval_fired 30
  ++ [results_fetched 0 0 (Some sample_rows);
      next_clicked 0 true (Some sample_rows)].

(** The first of three questions played through, and "Next" clicked twice
    under its results before the button has gone, the second update of the
    row being refused; then the two deferred [startTimer] calls run. *)
Definition next_clicked_twice : list HostEvent :=
  start_clicked true
  :: repeat interval_fired 30
  ++ [results_fetched 0 0 (Some sample_rows);
      next_clicked 0 true None;
      next_clicked 0 false None;
      timeout_fired; timeout_fired].

(** The first question of the sample session, ten seconds after the game
    was started and with no interruption. *)
Definition ten_seconds_in : HostState :=
  Nat.iter 10 tick (startGame true sample_lobby).

(** A quiz whose only question has both of its options marked correct, as
    [loadExistingQuiz] hands it over when the stored rows say so. *)
Definition two_correct_quiz : CreateQuiz.QuizData :=
  {| CreateQuiz.title := "Capitals";
     CreateQuiz.description := "";
     CreateQuiz.questions :=
       [ {| CreateQuiz.q_id := "q1";
            CreateQuiz.q_text := "Capital of France?";
            CreateQuiz.timeLimit := 30;
            CreateQuiz.options :=
              [ {| CreateQuiz.o_id := "o1"; CreateQuiz.o_text := "Paris";
                   CreateQuiz.isCorrect := true |};
                {| CreateQuiz.o_id := "o2"; CreateQuiz.o_text := "Lyon";
                   CreateQuiz.isCorrect := true |} ] |} ] |}.

(** * Properties *)

(** ** Tally *)

Lemma uniqueKey_inj qi : Inj (=) (=) (uniqueKey qi).
Proof.
  intros a b H. unfold uniqueKey in H.
  repeat (apply (inj (String.append _)) in H). exact H.
Qed.

Lemma sum_counts_empty : sum_counts ∅ = 0.
Proof. unfold sum_counts. apply map_fold_empty. Qed.

Lemma sum_counts_insert_fresh (m : gmap string Z) k v :
  m !! k = None -> sum_counts (<[k:=v]> m) = v + sum_counts m.
Proof.
  intros Hk. unfold sum_counts.
  apply (map_fold_insert_L (fun _ n acc => n + acc)); [intros; lia | exact Hk].
Qed.

Lemma sum_counts_insert_known (m : gmap string Z) k v w :
  m !! k = Some v -> sum_counts (<[k:=w]> m) = sum_counts m + (w - v).
Proof.
  intros Hk.
  rewrite <- (insert_delete_eq m k w).
  rewrite sum_counts_insert_fresh by apply lookup_delete_eq.
  rewrite <- (insert_id m k v Hk) at 2.
  rewrite <- (insert_delete_eq m k v).
  rewrite sum_counts_insert_fresh by apply lookup_delete_eq.
  lia.
Qed.

Lemma sum_counts_all_zero (m : gmap string Z) :
  (forall k v, m !! k = Some v -> v = 0) -> sum_counts m = 0.
Proof.
  induction m as [|k v m Hk IH] using map_ind; intros Hz.
  - apply sum_counts_empty.
  - rewrite sum_counts_insert_fresh by exact Hk.
    rewrite (Hz k v) by apply lookup_insert_eq.
    rewrite IH; [reflexivity|].
    intros k' v' Hk'. apply (Hz k').
    rewrite lookup_insert_ne; [exact Hk'|]. intros ->. congruence.
Qed.

Lemma init_fold_lookup qi opts (m : gmap string Z) k :
  foldl (fun stats o => <[uniqueKey qi (opt_id o) := 0]> stats) m opts !! k =
  if existsb (fun o => String.eqb (uniqueKey qi (opt_id o)) k) opts
  then Some 0 else m !! k.
Proof.
  revert m. induction opts as [|o opts IH]; intros m; cbn [foldl existsb];
    [reflexivity|].
  rewrite IH. clear IH.
  destruct (existsb _ opts); [now rewrite orb_true_r|].
  rewrite orb_false_r.
  destruct (String.eqb (uniqueKey qi (opt_id o)) k) eqn:E.
  - apply String.eqb_eq in E. rewrite E. apply lookup_insert_eq.
  - apply String.eqb_neq in E. now apply lookup_insert_ne.
Qed.

Lemma init_stats_lookup qi q oid :
  init_stats qi (options q) !! uniqueKey qi oid =
  if belongs_to q oid then Some 0 else None.
Proof.
  unfold init_stats, belongs_to. rewrite init_fold_lookup, lookup_empty.
  assert (existsb (fun o => String.eqb (uniqueKey qi (opt_id o)) (uniqueKey qi oid))
            (options q)
          = existsb (fun o => String.eqb (opt_id o) oid) (options q)) as ->;
    [|reflexivity].
  induction (options q) as [|o opts IH]; cbn [existsb]; [reflexivity|].
  rewrite IH. f_equal.
  destruct (String.eqb_spec (opt_id o) oid) as [->|Hne].
  - apply String.eqb_refl.
  - apply String.eqb_neq. intros H. apply Hne. now apply (uniqueKey_inj qi).
Qed.

Lemma init_stats_zero qi opts k v :
  init_stats qi opts !! k = Some v -> v = 0.
Proof.
  unfold init_stats. rewrite init_fold_lookup, lookup_empty.
  destruct (existsb _ opts); congruence.
Qed.

Lemma count_answer_is_Some qi (m : gmap string Z) oid k :
  is_Some (count_answer qi m oid !! k) <-> is_Some (m !! k).
Proof.
  unfold count_answer.
  destruct (m !! uniqueKey qi oid) as [n|] eqn:E; [|reflexivity].
  destruct (decide (uniqueKey qi oid = k)) as [<-|Hne].
  - rewrite lookup_insert_eq, E. split; eauto.
  - now rewrite lookup_insert_ne.
Qed.

Lemma known_count_answer qi m oid a :
  known qi (count_answer qi m oid) a = known qi m a.
Proof. unfold known. apply bool_decide_ext, count_answer_is_Some. Qed.

Lemma sum_counts_count_answer qi m oid :
  sum_counts (count_answer qi m oid) =
  sum_counts m + (if known qi m oid then 1 else 0).
Proof.
  unfold count_answer, known.
  destruct (m !! uniqueKey qi oid) as [n|] eqn:E.
  - rewrite (sum_counts_insert_known m _ n) by exact E.
    rewrite bool_decide_eq_true_2 by eauto. lia.
  - rewrite bool_decide_eq_false_2; [lia|]. intros [? ?]; congruence.
Qed.

Lemma sum_counts_foldl qi answers : forall m,
  sum_counts (foldl (count_answer qi) m answers) =
  sum_counts m + Z.of_nat (length (List.filter (known qi m) answers)).
Proof.
  induction answers as [|a answers IH]; intros m; cbn [foldl List.filter].
  - simpl. lia.
  - rewrite IH, sum_counts_count_answer.
    rewrite (List.filter_ext _ _ (known_count_answer qi m a)).
    destruct (known qi m a); cbn [length]; lia.
Qed.

Lemma known_init_stats qi q oid :
  known qi (init_stats qi (options q)) oid = belongs_to q oid.
Proof.
  unfold known. rewrite init_stats_lookup.
  destruct (belongs_to q oid).
  - apply bool_decide_eq_true_2. eauto.
  - apply bool_decide_eq_false_2. intros [? ?]; congruence.
Qed.

Lemma sum_counts_recount qi q answers :
  sum_counts (answerStats (recount qi q answers)) =
  Z.of_nat (length (List.filter (belongs_to q) answers)).
Proof.
  unfold recount; cbn [answerStats].
  rewrite sum_counts_foldl.
  rewrite (sum_counts_all_zero (init_stats _ _)) by apply init_stats_zero.
  rewrite (List.filter_ext _ _ (known_init_stats qi q)). lia.
Qed.

Lemma refreshAnswerStats_current qs qi q fetched t :
  js_index qs qi = Some q ->
  refreshAnswerStats qs qi qi (Some fetched) t =
  recount qi q (select_option_ids fetched qi).
Proof.
  intros Hq. unfold refreshAnswerStats. rewrite Hq.
  unfold js_index in Hq. destruct (qi <? 0); [discriminate|].
  now rewrite Z.eqb_refl.
Qed.

Lemma select_option_ids_length rows qi :
  length (select_option_ids rows qi) = length (answering_players rows qi).
Proof. unfold select_option_ids, answering_players. now rewrite !length_map. Qed.

Lemma filter_all_length {A} (f : A -> bool) l :
  forallb f l = true -> length (List.filter f l) = length l.
Proof.
  induction l as [|x l IH]; cbn [forallb List.filter]; [reflexivity|].
  intros [Hx Hl]%andb_prop. rewrite Hx. cbn [length]. now rewrite IH.
Qed.

(** C4 (as amended): the tally that [refreshAnswerStats] stores for the
    current question has [total] equal to the number of stored rows of that
    question, and the counts add up to the number of those rows whose
    [option_id] is one of the question's options.  So the sum of the counts
    never exceeds [total]; it equals [total] when every row names an option
    of the question; and [total] is at most the number of players when the
    rows come from distinct players of the session. *)
Theorem tally_sum_le_total (qs : list Question) (qi : Z) (q : Question)
    (rows : list Answer) (t0 : Tally) :
  js_index qs qi = Some q ->
  let t := refreshAnswerStats qs qi qi (Some rows) t0 in
  let answers := select_option_ids rows qi in
  sum_counts (answerStats t)
    = Z.of_nat (length (List.filter (belongs_to q) answers)) /\
  totalAnswers t = Z.of_nat (length answers) /\
  sum_counts (answerStats t) <= totalAnswers t /\
  (forallb (belongs_to q) answers = true ->
   sum_counts (answerStats t) = totalAnswers t) /\
  (forall ps : list Player,
     List.NoDup (answering_players rows qi) ->
     List.incl (answering_players rows qi) (map id ps) ->
     totalAnswers t <= Z.of_nat (length ps)).
Proof.
  intros Hq t answers. subst t.
  rewrite (refreshAnswerStats_current qs qi q rows t0 Hq).
  fold answers. rewrite sum_counts_recount. cbn [totalAnswers recount].
  pose proof (List.filter_length_le (belongs_to q) answers) as Hle.
  repeat split.
  - lia.
  - intros Hall. now rewrite filter_all_length.
  - intros ps Hnd Hincl.
    pose proof (List.NoDup_incl_length Hnd Hincl) as Hlen.
    rewrite length_map in Hlen. subst answers.
    rewrite select_option_ids_length. lia.
Qed.

Lemma tally_sum_le_total_witness :
  sum_counts (answerStats
                (refreshAnswerStats [sample_question] 0 0 (Some sample_rows)
                   empty_tally)) = 3 /\
  totalAnswers (refreshAnswerStats [sample_question] 0 0 (Some sample_rows)
                  empty_tally) = 3.
Proof.
  destruct (tally_sum_le_total [sample_question] 0 sample_question sample_rows
              empty_tally eq_refl) as (_ & Htotal & _ & Hall & _).
  split.
  - rewrite (Hall eq_refl). exact Htotal.
  - exact Htotal.
Defined.

(** C4, the claim as stated fails: one stored row naming an option that the
    question does not have is counted in [total] but in no option's count. *)
Lemma tally_sum_stray_option :
  ~ (sum_counts (answerStats
                   (refreshAnswerStats [sample_question] 0 0 (Some stray_rows)
                      empty_tally))
     = totalAnswers (refreshAnswerStats [sample_question] 0 0 (Some stray_rows)
                       empty_tally) /\
     totalAnswers (refreshAnswerStats [sample_question] 0 0 (Some stray_rows)
                     empty_tally) <= Z.of_nat (length sample_players)).
Proof. intros [H _]. vm_compute in H. discriminate H. Qed.

(** ** Consumption of notifications *)




Lemma js_index_nil {A} i : js_index (@nil A) i = None.
Proof. unfold js_index. now destruct (i <? 0). Qed.





(** ** Scores *)

Lemma displayed_score_add_points pid a ps :
  displayed_score pid (add_points a ps)
  = (fun sc => if String.eqb pid (player_id a) then sc + 100 else sc)
      <$> displayed_score pid ps.
Proof.
  unfold displayed_score, add_points.
  induction ps as [|p ps IH]; [reflexivity|].
  cbn [map List.find].
  destruct (String.eqb (id p) (player_id a)) eqn:Ea; cbn [id];
    destruct (String.eqb (id p) pid) eqn:Ep; try exact IH; cbn [fmap option_fmap option_map score].
  - apply String.eqb_eq in Ea, Ep. rewrite <- Ep, <- Ea, String.eqb_refl.
    reflexivity.
  - apply String.eqb_eq in Ep. rewrite <- Ep, Ea. reflexivity.
Qed.

Lemma displayed_score_completion pid fetched ps :
  displayed_score pid (calculatePlayerCompletionTimes fetched ps)
  = displayed_score pid ps.
Proof.
  unfold displayed_score, calculatePlayerCompletionTimes.
  destruct fetched as [rows|]; [|reflexivity].
  induction ps as [|p ps IH]; [reflexivity|].
  cbn [map List.find id]. destruct (String.eqb (id p) pid); [reflexivity|].
  exact IH.
Qed.

Lemma displayed_score_formatted pid rows sc :
  displayed_score pid (formattedPlayers rows) = Some sc -> sc = 0.
Proof.
  unfold displayed_score, formattedPlayers.
  induction rows as [|r rows IH]; cbn [map List.find]; [discriminate|].
  cbn [id]. destruct (String.eqb (pr_id r) pid); [|exact IH].
  cbn. congruence.
Qed.

Lemma startTimer_in_players qs i secs s :
  players (startTimer_in qs i secs s) = players s.
Proof. unfold startTimer_in. now destruct (js_index qs i). Qed.

Lemma startTimer_players i secs s : players (startTimer i secs s) = players s.
Proof. apply startTimer_in_players. Qed.

Lemma fetchGameData_players st user s :
  fetchGameData st user = Some s ->
  players s = formattedPlayers (game_players st).
Proof.
  unfold fetchGameData.
  destruct (game_sessions st) as [row|]; [|discriminate].
  destruct (negb _); [discriminate|].
  destruct (current_question_index row) as [idx|].
  - destruct (_ && _).
    + destruct (js_index _ idx).
      * intros [= <-]. now rewrite startTimer_in_players.
      * now intros [= <-].
    + now intros [= <-].
  - now intros [= <-].
Qed.

Lemma startGame_players ok s : players (startGame ok s) = players s.
Proof.
  unfold startGame. destruct (questions s); [reflexivity|].
  destruct ok; cbn [negb]; [|reflexivity].
  now rewrite startTimer_players.
Qed.

Lemma tick_players s : players (tick s) = players s.
Proof.
  unfold tick. destruct (timerRef s); [|reflexivity].
  now destruct (time_is_up _).
Qed.

Lemma nextQuestion_score pid cqi ok fetched s :
  displayed_score pid (players (nextQuestion cqi ok fetched s))
  = displayed_score pid (players s).
Proof.
  unfold nextQuestion. destruct (_ >=? _); cbn [players clear_timers];
    [apply displayed_score_completion | reflexivity].
Qed.

Lemma run_scheduled_players s : players (run_scheduled s) = players s.
Proof.
  unfold run_scheduled. destruct (scheduled s) as [|[i secs] rest];
    [reflexivity|].
  now rewrite startTimer_players.
Qed.

(** Only an insert notification for a correct answer of the player changes
    the score shown for the player. *)
Lemma step_score pid s e :
  displayed_score pid (players (step s e))
  = (fun sc => sc + 100 * correct_answers_of pid (inserted [e]))
      <$> displayed_score pid (players s).
Proof.
  assert (forall o : option Z, o = (fun sc => sc + 100 * 0) <$> o) as Hid.
  { intros [sc|]; cbn [fmap option_fmap option_map];
      [f_equal; lia | reflexivity]. }
  destruct e; cbn [step];
    try change (correct_answers_of pid (inserted [_])) with 0.
  - rewrite startGame_players. apply Hid.
  - rewrite tick_players. apply Hid.
  - apply Hid.
  - rewrite nextQuestion_score. apply Hid.
  - cbn [endQuiz players]. rewrite displayed_score_completion. apply Hid.
  - rewrite run_scheduled_players. apply Hid.
  - change (inserted [answer_inserted cqi answer]) with [answer].
    cbn [on_answer_insert players]. unfold correct_answers_of.
    cbn [List.filter].
    destruct (is_correct answer); cbn [andb].
    + rewrite displayed_score_add_points.
      destruct (displayed_score pid (players s)) as [sc|]; [|reflexivity].
      cbn [fmap option_fmap option_map].
      destruct (String.eqb pid (player_id answer)); cbn [length]; f_equal; lia.
    + apply Hid.
  - apply Hid.
  - apply Hid.
Qed.

Lemma inserted_app l1 l2 : inserted (l1 ++ l2) = inserted l1 ++ inserted l2.
Proof. unfold inserted. apply omap_app. Qed.

Lemma correct_answers_of_app pid l1 l2 :
  correct_answers_of pid (l1 ++ l2)
  = correct_answers_of pid l1 + correct_answers_of pid l2.
Proof.
  unfold correct_answers_of. rewrite List.filter_app, length_app. lia.
Qed.

Lemma run_score pid events : forall s,
  displayed_score pid (players (run events s))
  = (fun sc => sc + 100 * correct_answers_of pid (inserted events))
      <$> displayed_score pid (players s).
Proof.
  unfold run. induction events as [|e events IH]; intros s; cbn [foldl].
  - change (correct_answers_of pid (inserted [])) with 0.
    destruct (displayed_score pid (players s)); cbn [fmap option_fmap option_map];
      [f_equal; lia | reflexivity].
  - rewrite IH, step_score.
    change (e :: events) with ([e] ++ events).
    rewrite inserted_app, correct_answers_of_app.
    destruct (displayed_score pid (players s)); cbn [fmap option_fmap option_map];
      [f_equal; lia | reflexivity].
Qed.

Lemma correct_answers_of_Permutation pid l1 l2 :
  Permutation l1 l2 -> correct_answers_of pid l1 = correct_answers_of pid l2.
Proof.
  unfold correct_answers_of. intros HP. f_equal.
  induction HP as [|a l1 l2 _ IH|a b l|l1 l2 l3 _ IH1 _ IH2];
    cbn [List.filter].
  - reflexivity.
  - destruct (_ && _); cbn [length]; now rewrite IH.
  - destruct (is_correct b && _), (is_correct a && _); reflexivity.
  - now rewrite IH1.
Qed.

(** C1 (as amended): every player is loaded with score 0, whatever answers
    the store holds, and whatever happens on the host screen afterwards, the
    score shown for a player is 100 times the number of delivered insert
    notifications that are correct and carry the player's id.  It is 100
    times the number of the player's correct stored answers when the
    notifications delivered since the load are exactly the stored answers,
    each once, in any order. *)
Theorem score_counts_notifications (st : Store) (user : option string)
    (s : HostState) (events : list HostEvent) (pid : string) (sc : Z) :
  fetchGameData st user = Some s ->
  displayed_score pid (players s) = Some sc ->
  sc = 0 /\
  displayed_score pid (players (run events s))
    = Some (100 * correct_answers_of pid (inserted events)) /\
  (forall log, Permutation (inserted events) log ->
     displayed_score pid (players (run events s))
       = Some (100 * correct_answers_of pid log)).
Proof.
  intros Hload Hsc.
  assert (sc = 0) as ->.
  { rewrite (fetchGameData_players _ _ _ Hload) in Hsc.
    now apply displayed_score_formatted in Hsc. }
  assert (displayed_score pid (players (run events s))
          = Some (100 * correct_answers_of pid (inserted events))) as Hshown.
  { rewrite run_score, Hsc. reflexivity. }
  repeat split; [exact Hshown|].
  intros log HP. rewrite Hshown.
  now rewrite (correct_answers_of_Permutation pid _ log HP).
Qed.

Lemma fetch_lobby : fetchGameData lobby_store (Some "host-1") = Some sample_lobby.
Proof. reflexivity. Qed.

Lemma score_counts_notifications_witness :
  displayed_score "p1" (players (run sample_events sample_lobby)) = Some 100.
Proof.
  exact (proj1 (proj2 (score_counts_notifications lobby_store (Some "host-1")
                         sample_lobby sample_events "p1" 0 eq_refl eq_refl))).
Defined.

(** C1, the claim as stated fails: the store holds one correct answer of
    player [p1]; when its insert notification is delivered twice, the board
    shows 200 for [p1], not 100 times the one stored correct answer. *)
Lemma duplicate_notification_doubles_score :
  ~ (forall s, fetchGameData active_store (Some "host-1") = Some s ->
       displayed_score "p1"
         (players (run [ answer_inserted 0 (sample_row "p1" "X" true);
                         answer_inserted 0 (sample_row "p1" "X" true) ] s))
       = Some (100 * correct_answers_of "p1" (game_answers active_store))).
Proof.
  intros H. specialize (H _ eq_refl). vm_compute in H. discriminate H.
Qed.

(** ** Countdown *)

Lemma countdown_invariant s i q T :
  js_index (questions s) i = Some q -> 1 <= T ->
  forall k,
    (Z.of_nat k < T ->
     timeLeft (Nat.iter k tick (startTimer i (Some T) s)) = Some (T - Z.of_nat k) /\
     timerRef (Nat.iter k tick (startTimer i (Some T) s))
       = Some {| cd_question := i; cd_currentTime := Some (T - Z.of_nat k) |} /\
     sent (Nat.iter k tick (startTimer i (Some T) s))
       = sent s ++ [question_started i (Some T)]) /\
    (T <= Z.of_nat k ->
     timeLeft (Nat.iter k tick (startTimer i (Some T) s)) = Some 0 /\
     timerRef (Nat.iter k tick (startTimer i (Some T) s)) = None /\
     sent (Nat.iter k tick (startTimer i (Some T) s))
       = sent s ++ [question_started i (Some T); time_up i]).
Proof.
  intros Hq HT. induction k as [|k [IHrun IHdone]].
  - split; [intros _|intros H; simpl in H; lia].
    cbn [Nat.iter nat_rect]. unfold startTimer, startTimer_in. rewrite Hq.
    cbn [timeLeft timerRef sent]. rewrite Z.sub_0_r. auto.
  - rewrite Nat.iter_succ.
    set (r := Nat.iter k tick (startTimer i (Some T) s)) in *.
    destruct (Z_lt_le_dec (Z.of_nat k) T) as [Hlt|Hge].
    + destruct (IHrun Hlt) as (_ & Href & Hsent).
      unfold tick. rewrite Href. cbn [cd_currentTime cd_question option_map time_is_up].
      destruct (T - Z.of_nat k - 1 <=? 0) eqn:Hup;
        [apply Z.leb_le in Hup | apply Z.leb_gt in Hup];
        cbn [timeLeft timerRef sent]; (split; [intros Hlt'|intros Hge']);
        try lia.
      * rewrite Hsent, <- app_assoc. repeat split; try reflexivity.
        f_equal. lia.
      * replace (T - Z.of_nat (S k)) with (T - Z.of_nat k - 1) by lia.
        auto.
    + destruct (IHdone Hge) as (Hleft & Href & Hsent).
      unfold tick. rewrite Href.
      split; [intros Hlt'; lia | auto].
Qed.

(** C2 (as amended): the timer is a relative tick counter.  After
    [startTimer(i, T)] for an existing question and [T >= 1], the time shown
    after [k] runs of the interval callback is [max(0, T - k)]; the interval
    is cleared, and [time_up] broadcast once, by the [T]-th run.  No deadline
    and no start time is stored or read, so the time shown depends on the
    number of callbacks run since [startTimer] only. *)
Theorem countdown_by_ticks (s : HostState) (i T : Z) (q : Question) (k : nat) :
  js_index (questions s) i = Some q ->
  1 <= T ->
  timeLeft (Nat.iter k tick (startTimer i (Some T) s))
    = Some (Z.max 0 (T - Z.of_nat k)) /\
  (timerRef (Nat.iter k tick (startTimer i (Some T) s)) = None
   <-> T <= Z.of_nat k) /\
  sent (Nat.iter k tick (startTimer i (Some T) s))
    = (sent s ++ question_started i (Some T)
                 :: (if T <=? Z.of_nat k then [time_up i] else []))%list.
Proof.
  intros Hq HT.
  destruct (countdown_invariant s i q T Hq HT k) as [Hrun Hdone].
  destruct (Z_lt_le_dec (Z.of_nat k) T) as [Hlt|Hge].
  - destruct (Hrun Hlt) as (Hleft & Href & Hsent).
    rewrite Hleft, Href, Hsent, (proj2 (Z.leb_gt _ _) Hlt).
    repeat split; try (f_equal; lia); try discriminate; try lia.
  - destruct (Hdone Hge) as (Hleft & Href & Hsent).
    rewrite Hleft, Href, Hsent, (proj2 (Z.leb_le _ _) Hge).
    repeat split; try (f_equal; lia); auto.
Qed.

Lemma countdown_by_ticks_witness :
  timeLeft (Nat.iter 10 tick (startTimer 0 (Some 30) sample_lobby)) = Some 20.
Proof.
  exact (proj1 (countdown_by_ticks sample_lobby 0 30 sample_question 10 eq_refl
                  (Zle_bool_imp_le 1 30 eq_refl))).
Defined.

(** C2, the claim as stated fails: ten seconds into the 30-second question
    an uninterrupted host shows 20 seconds; a host that reloads the persisted
    session at that moment does not show a time within one second of it (it
    shows 0 and has no countdown running). *)
Lemma restart_forgets_countdown :
  ~ (forall restarted,
       fetchGameData (persisted ten_seconds_in []) (Some "host-1")
         = Some restarted ->
       exists a b,
         timeLeft ten_seconds_in = Some a /\
         timeLeft restarted = Some b /\
         Z.abs (a - b) <= 1).
Proof.
  intros H.
  destruct (fetchGameData (persisted ten_seconds_in []) (Some "host-1"))
    as [restarted|] eqn:E; [|vm_compute in E; discriminate E].
  destruct (H restarted eq_refl) as (a & b & Ha & Hb & Hab).
  vm_compute in E. injection E as <-.
  vm_compute in Ha. vm_compute in Hb.
  injection Ha as <-. injection Hb as <-. lia.
Qed.

(** ** Progression *)

Lemma nextQuestion_advances cqi ok fetched s :
  cqi + 1 < Z.of_nat (length (questions s)) ->
  nextQuestion cqi ok fetched s
  = {| questions := questions s;
       players := players s;
       currentQuestionIndex := cqi + 1;
       timeLeft := Some 0;
       showResults := false;
       gameEnded := gameEnded s;
       isCalculatingResults := false;
       tally := tally s;
       isPolling := false;
       pollingRef := None;
       timerRef := None;
       session := if ok
                  then {| host_id := host_id (session s);
                          status := status (session s);
                          current_question_index := Some (cqi + 1) |}
                  else session s;
       sent := sent s ++ [question_changed (cqi + 1)];
       scheduled :=
         match js_index (questions s) (cqi + 1) with
         | Some q => scheduled s ++ [(cqi + 1, Some (time_limit q))]
         | None => scheduled s
         end |}.
Proof.
  intros Hlt. unfold nextQuestion.
  destruct (cqi + 1 >=? Z.of_nat (length (questions s))) eqn:E;
    [rewrite Z.geb_leb in E; apply Z.leb_le in E; lia|].
  reflexivity.
Qed.

Lemma nextQuestion_ends cqi ok fetched s :
  Z.of_nat (length (questions s)) <= cqi + 1 ->
  nextQuestion cqi ok fetched s
  = {| questions := questions s;
       players := calculatePlayerCompletionTimes fetched (players s);
       currentQuestionIndex := currentQuestionIndex s;
       timeLeft := timeLeft s;
       showResults := showResults s;
       gameEnded := true;
       isCalculatingResults := isCalculatingResults s;
       tally := tally s;
       isPolling := false;
       pollingRef := None;
       timerRef := None;
       session := if ok
                  then {| host_id := host_id (session s);
                          status := "completed";
                          current_question_index := None |}
                  else session s;
       sent := sent s ++ [game_ended];
       scheduled := scheduled s |}.
Proof.
  intros Hge. unfold nextQuestion.
  destruct (cqi + 1 >=? Z.of_nat (length (questions s))) eqn:E;
    [|rewrite Z.geb_leb in E; apply Z.leb_gt in E; lia].
  reflexivity.
Qed.

(** C3 (as amended): [nextQuestion] checks no state and has no failing
    outcome.  It reads the index [i] of the render it was called in.  With
    [i+1 < N] it puts the host at index [i+1], leaves the results view, so
    that the button calling it is no longer shown, and sends
    [question_changed]; otherwise it ends the game and sends [game_ended].
    The session row is written by an update whose error is not read: the
    row holds [i+1], or the status completed and no index, when the store
    accepts the update, and stays as it was when it does not, the host
    moving on either way.  A second call in a row, made from the same
    render, is carried out like the first: it sets the index to [i+1] again,
    so that the index changes once, but it sends [question_changed] (or
    [game_ended]) a second time and defers a second [startTimer] for
    question [i+1]. *)
Theorem nextQuestion_unguarded (cqi : Z) (ok ok' : bool)
    (fetched fetched' : option (list Answer)) (s : HostState) :
  let N := Z.of_nat (length (questions s)) in
  let once := nextQuestion cqi ok fetched s in
  let twice := nextQuestion cqi ok' fetched' once in
  (cqi + 1 < N ->
   currentQuestionIndex once = cqi + 1 /\
   current_question_index (session once)
     = (if ok then Some (cqi + 1) else current_question_index (session s)) /\
   status (session once) = status (session s) /\
   gameEnded once = gameEnded s /\
   next_button_shown once = false /\
   sent once = sent s ++ [question_changed (cqi + 1)]) /\
  (N <= cqi + 1 ->
   currentQuestionIndex once = currentQuestionIndex s /\
   current_question_index (session once)
     = (if ok then None else current_question_index (session s)) /\
   status (session once) = (if ok then "completed" else status (session s)) /\
   gameEnded once = true /\
   sent once = sent s ++ [game_ended]) /\
  (cqi + 1 < N ->
   currentQuestionIndex twice = cqi + 1 /\
   current_question_index (session twice)
     = (if ok || ok' then Some (cqi + 1)
        else current_question_index (session s)) /\
   sent twice
     = sent s ++ [question_changed (cqi + 1); question_changed (cqi + 1)] /\
   forall q, js_index (questions s) (cqi + 1) = Some q ->
     scheduled twice
     = scheduled s ++ [ (cqi + 1, Some (time_limit q));
                        (cqi + 1, Some (time_limit q)) ]) /\
  (N <= cqi + 1 ->
   currentQuestionIndex twice = currentQuestionIndex s /\
   gameEnded twice = true /\
   sent twice = sent s ++ [game_ended; game_ended]).
Proof.
  intros N once twice. subst N once twice.
  split; [|split; [|split]].
  - intros Hlt. rewrite (nextQuestion_advances _ _ _ _ Hlt).
    cbn. destruct ok; cbn; repeat split; reflexivity.
  - intros Hge. rewrite (nextQuestion_ends _ _ _ _ Hge).
    cbn. destruct ok; cbn; repeat split; reflexivity.
  - intros Hlt. rewrite (nextQuestion_advances cqi ok fetched s Hlt).
    rewrite nextQuestion_advances by exact Hlt.
    cbn. rewrite <- app_assoc. split; [reflexivity|]. split.
    { destruct ok, ok'; reflexivity. }
    split; [reflexivity|].
    intros q Hq. rewrite Hq, <- app_assoc. reflexivity.
  - intros Hge. rewrite (nextQuestion_ends cqi ok fetched s Hge).
    rewrite nextQuestion_ends by exact Hge.
    cbn. rewrite <- app_assoc. repeat split; reflexivity.
Qed.

(** C3, the claim as stated fails: with three questions and the first one
    showing its results, a second call of [nextQuestion] from the same
    render is no error and does not leave the state that the first call
    left: [question_changed] is sent a second time and a second
    [startTimer] is deferred, both of which then start question 1. *)
Lemma second_advance_repeats_effects :
  next_button_shown first_results = true /\
  currentQuestionIndex (nextQuestion 0 true None first_results) = 1 /\
  currentQuestionIndex
    (nextQuestion 0 true None (nextQuestion 0 true None first_results)) = 1 /\
  sent (nextQuestion 0 true None (nextQuestion 0 true None first_results))
  = sent (nextQuestion 0 true None first_results) ++ [question_changed 1] /\
  scheduled (nextQuestion 0 true None (nextQuestion 0 true None first_results))
  = [(1, Some 30); (1, Some 30)] /\
  sent (run_scheduled
          (run_scheduled
             (nextQuestion 0 true None (nextQuestion 0 true None first_results))))
  = sent first_results
      ++ [ question_changed 1; question_changed 1;
           question_started 1 (Some 30); question_started 1 (Some 30) ] /\
  nextQuestion 0 true None (nextQuestion 0 true None first_results)
  <> nextQuestion 0 true None first_results.
Proof.
  repeat split; try (vm_compute; reflexivity).
  intros H. apply (f_equal (fun s => length (sent s))) in H.
  vm_compute in H. discriminate H.
Qed.

(** ** Percentages *)

Lemma percentage_agrees_39 : percentage_agrees_upto 39 = true.
Proof. vm_compute. reflexivity. Qed.

Lemma percentage_agrees_upto_spec bound count total :
  percentage_agrees_upto bound = true ->
  0 <= count <= total -> 0 < total <= Z.of_nat bound ->
  shown_integer (percentage count total) = Some (round_ratio count total).
Proof.
  unfold percentage_agrees_upto. intros Hall Hc Ht.
  rewrite forallb_forall in Hall.
  specialize (Hall (Z.to_nat total)).
  rewrite forallb_forall in Hall.
  assert (In (Z.to_nat total) (seq 1 bound)) as Hin by (apply in_seq; lia).
  specialize (Hall Hin (Z.to_nat count)).
  assert (In (Z.to_nat count) (seq 0 (S (Z.to_nat total)))) as Hin'
    by (apply in_seq; lia).
  specialize (Hall Hin').
  rewrite !Z2Nat.id in Hall by lia.
  unfold percentage_agrees in Hall.
  destruct (shown_integer (percentage count total)) as [n|]; [|discriminate].
  apply Z.eqb_eq in Hall. now subst.
Qed.

(** C6 (as amended): with no answers the percentage of every option is 0
    and nothing is divided; in particular a question that nobody answered
    has total 0 and shows 0 for each option.  Otherwise the percentage is
    [Math.round] of the double [(count / total) * 100]; for every total up
    to 39 this is [100 * count / total] rounded to the nearest integer, a
    tie going up. *)
Theorem percentage_shown (count total : Z) :
  (total <= 0 -> percentage count total = num 0) /\
  (forall qi q o,
     totalAnswers (recount qi q []) = 0 /\
     percentage (answerCount (answerStats (recount qi q [])) qi o)
                (totalAnswers (recount qi q [])) = num 0) /\
  shown_integer (num 0) = Some 0 /\
  (0 <= count <= total -> 0 < total <= 39 ->
   shown_integer (percentage count total) = Some (round_ratio count total)).
Proof.
  repeat split.
  - intros Hle. unfold percentage.
    destruct (total >? 0) eqn:E; [|reflexivity].
    rewrite Z.gtb_ltb in E. apply Z.ltb_lt in E. lia.
  - intros Hc Ht.
    apply (percentage_agrees_upto_spec 39); [apply percentage_agrees_39| |]; lia.
Qed.

(** C6, the claim as stated fails: with 23 of 40 answers on an option the
    double [(23 / 40) * 100] lies just below 57.5 and 57 is shown, whereas
    [100 * 23 / 40] is 57.5 and rounds to 58. *)
Lemma percentage_23_of_40 :
  shown_integer (percentage 23 40) <> Some (round_ratio 23 40).
Proof. vm_compute. discriminate. Qed.

(** ** Summary *)

(** C8, the code at the failing inputs: with no players, or with no
    questions, the participation rate is not a number, and it is infinite
    when answers exist for a session without players; the average score
    without players is not a number either, whereas the accuracies next to
    them do guard their denominators. *)
Theorem participationRate_unguarded :
  Summary.participationRate [sample_question] [] [] = nan /\
  Summary.participationRate [] sample_players [] = nan /\
  Summary.participationRate [sample_question] [] sample_rows = infinity /\
  shown_integer (Summary.participationRate [sample_question] [] []) = None /\
  Summary.averageScore [] = nan /\
  Summary.overallAccuracy [] = num 0 /\
  Summary.question_accuracy [] 0 = num 0.
Proof. repeat split; vm_compute; reflexivity. Qed.

(** ** Leaderboard *)

Section StableSort.
Context {A : Type} (cmp : A -> A -> Z).

Lemma js_insert_Permutation x l : Permutation (x :: l) (js_insert cmp x l).
Proof.
  induction l as [|y l IH]; cbn [js_insert]; [reflexivity|].
  destruct (cmp x y <=? 0); [reflexivity|].
  rewrite perm_swap. now apply perm_skip.
Qed.

Lemma js_sort_Permutation l : Permutation l (js_sort cmp l).
Proof.
  induction l as [|x l IH]; cbn [js_sort foldr]; [reflexivity|].
  rewrite <- js_insert_Permutation. now apply perm_skip.
Qed.

Lemma js_insert_filter (P : A -> bool) x l :
  (forall y, P x = true -> P y = true -> cmp x y <= 0) ->
  List.filter P (js_insert cmp x l) = List.filter P (x :: l).
Proof.
  intros Htie. induction l as [|y l IH]; cbn [js_insert]; [reflexivity|].
  destruct (cmp x y <=? 0) eqn:E; [reflexivity|].
  apply Z.leb_gt in E.
  cbn [List.filter] in *. rewrite IH.
  destruct (P x) eqn:Px; [|reflexivity].
  destruct (P y) eqn:Py; [|reflexivity].
  specialize (Htie y eq_refl Py). lia.
Qed.

Lemma js_sort_filter (P : A -> bool) l :
  (forall x y, P x = true -> P y = true -> cmp x y <= 0) ->
  List.filter P (js_sort cmp l) = List.filter P l.
Proof.
  intros Htie. induction l as [|x l IH]; cbn [js_sort foldr]; [reflexivity|].
  rewrite js_insert_filter by (intros y; apply Htie).
  cbn [List.filter]. fold (js_sort cmp l). now rewrite IH.
Qed.

Context (R : A -> A -> Prop).
Hypothesis cmp_R : forall x y, cmp x y <= 0 <-> R x y.
Hypothesis R_total : forall x y, R x y \/ R y x.
Hypothesis R_trans : forall x y z, R x y -> R y z -> R x z.

Lemma js_insert_sorted x l :
  StronglySorted R l -> StronglySorted R (js_insert cmp x l).
Proof.
  induction 1 as [|y l Hl IH Hy]; cbn [js_insert].
  - constructor; constructor.
  - destruct (cmp x y <=? 0) eqn:E.
    + apply Z.leb_le, cmp_R in E.
      constructor; [now constructor|].
      constructor; [exact E|].
      eapply Forall_impl; [exact Hy|]. intros z Hz. now apply (R_trans x y z).
    + apply Z.leb_gt in E.
      assert (R y x) as Hyx.
      { destruct (R_total x y) as [Hxy|Hyx]; [|exact Hyx].
        apply cmp_R in Hxy. lia. }
      constructor; [exact IH|].
      eapply Permutation_Forall; [apply js_insert_Permutation|].
      now constructor.
Qed.

Lemma js_sort_sorted l : StronglySorted R (js_sort cmp l).
Proof.
  induction l as [|x l IH]; cbn [js_sort foldr]; [constructor|].
  now apply js_insert_sorted.
Qed.

End StableSort.

Lemma leaderboard_cmp_ranks a b : leaderboard_cmp a b <= 0 <-> ranks_before a b.
Proof.
  unfold leaderboard_cmp, ranks_before.
  destruct (score b =? score a) eqn:E; cbn [negb].
  - apply Z.eqb_eq in E. lia.
  - apply Z.eqb_neq in E. lia.
Qed.

Lemma ranks_before_total a b : ranks_before a b \/ ranks_before b a.
Proof. unfold ranks_before. lia. Qed.

Lemma ranks_before_trans a b c :
  ranks_before a b -> ranks_before b c -> ranks_before a c.
Proof. unfold ranks_before. lia. Qed.

Lemma tied_cmp p a b :
  tied p a = true -> tied p b = true -> leaderboard_cmp a b <= 0.
Proof.
  unfold tied, leaderboard_cmp.
  intros [Ha1 Ha2]%andb_prop [Hb1 Hb2]%andb_prop.
  apply Z.eqb_eq in Ha1, Ha2, Hb1, Hb2.
  rewrite (proj2 (Z.eqb_eq (score b) (score a))) by lia.
  cbn [negb]. lia.
Qed.

Lemma sortedPlayers_Permutation board : Permutation board (sortedPlayers board).
Proof. apply js_sort_Permutation. Qed.

Lemma sortedPlayers_sorted board : StronglySorted ranks_before (sortedPlayers board).
Proof.
  apply js_sort_sorted.
  - apply leaderboard_cmp_ranks.
  - apply ranks_before_total.
  - apply ranks_before_trans.
Qed.

Lemma add_time_lookup (m : gmap string Z) a k :
  default 0 (add_time m a !! k)
  = default 0 (m !! k)
    + (if String.eqb (player_id a) k then or_zero (time_taken a) else 0).
Proof.
  unfold add_time.
  destruct (String.eqb (player_id a) k) eqn:E.
  - apply String.eqb_eq in E. subst k. rewrite lookup_insert_eq.
    case_bool_decide as Hz.
    + rewrite lookup_insert_eq, Hz. reflexivity.
    + reflexivity.
  - apply String.eqb_neq in E. rewrite lookup_insert_ne by exact E.
    case_bool_decide; [rewrite lookup_insert_ne by exact E|]; lia.
Qed.

Lemma foldl_add_time_lookup rows k : forall m : gmap string Z,
  default 0 (foldl add_time m rows !! k) = default 0 (m !! k) + time_total k rows.
Proof.
  induction rows as [|a rows IH]; intros m; cbn [foldl time_total foldr].
  - lia.
  - rewrite IH, add_time_lookup. fold (time_total k rows).
    destruct (String.eqb (player_id a) k); lia.
Qed.

Lemma completion_times_sum rows board :
  map totalCompletionTime (calculatePlayerCompletionTimes (Some rows) board)
  = map (fun p => Some (time_total (id p) rows)) board.
Proof.
  unfold calculatePlayerCompletionTimes. rewrite map_map.
  apply map_ext. intros p. cbn [totalCompletionTime].
  now rewrite foldl_add_time_lookup, lookup_empty.
Qed.

(** Scores first, then times, then the order of arrival. *)
Example sortedPlayers_sample :
  map id (sortedPlayers [ sample_player "a" 100 5; sample_player "b" 200 9;
                          sample_player "c" 100 5; sample_player "d" 200 3;
                          sample_player "e" 100 4 ])
  = ["d"; "b"; "e"; "a"; "c"].
Proof. reflexivity. Qed.

(** C7: the leaderboard is a rearrangement of the players in which every
    player is followed only by players with a lower score, or with the same
    score and a completion time that is not smaller; players tied on score
    and completion time keep the order they had before the sort.  The
    completion time that [calculatePlayerCompletionTimes] gives a player is
    the sum of [time_taken] over the player's stored answers. *)
Theorem leaderboard_order (board : list Player) :
  Permutation board (sortedPlayers board) /\
  StronglySorted ranks_before (sortedPlayers board) /\
  (forall p, List.filter (tied p) (sortedPlayers board)
             = List.filter (tied p) board) /\
  (forall rows,
     map totalCompletionTime (calculatePlayerCompletionTimes (Some rows) board)
     = map (fun p => Some (time_total (id p) rows)) board).
Proof.
  split; [apply sortedPlayers_Permutation|].
  split; [apply sortedPlayers_sorted|].
  split.
  - intros p. apply js_sort_filter. apply tied_cmp.
  - intros rows. apply completion_times_sum.
Qed.

(** C10: the leaderboard under the per-question results is the first five
    entries of the sorted order, so it has at most five entries, agrees with
    the sorted order on ranks one to five and has nothing at rank six or
    below; the sorted order is by score, higher first, then by completion
    time, lower first; the game-over screen maps over the whole sorted
    list, which holds every player exactly once. *)
Theorem results_leaderboard_top5 (board : list Player) :
  results_leaderboard board = firstn 5 (sortedPlayers board) /\
  length (results_leaderboard board) = Nat.min 5 (length board) /\
  (forall i, (i < 5)%nat ->
     results_leaderboard board !! i = sortedPlayers board !! i) /\
  (forall i, (5 <= i)%nat -> results_leaderboard board !! i = None) /\
  StronglySorted ranks_before (sortedPlayers board) /\
  Permutation board (sortedPlayers board) /\
  length (sortedPlayers board) = length board.
Proof.
  pose proof (sortedPlayers_Permutation board) as HP.
  unfold results_leaderboard. fold (sortedPlayers board).
  split; [reflexivity|].
  split; [rewrite length_take; now rewrite <- (Permutation_length HP)|].
  split; [intros i Hi; now apply lookup_take_lt|].
  split; [intros i Hi; now apply lookup_take_ge|].
  split; [apply sortedPlayers_sorted|].
  split; [exact HP | symmetry; apply (Permutation_length HP)].
Qed.

(** ** Quiz editor *)

Lemma setCorrectOption_marks questionId optionId prev q' :
  In q' (CreateQuiz.questions (CreateQuiz.setCorrectOption questionId optionId prev)) ->
  CreateQuiz.q_id q' = questionId ->
  forall o, In o (CreateQuiz.options q') ->
    CreateQuiz.isCorrect o = String.eqb (CreateQuiz.o_id o) optionId.
Proof.
  unfold CreateQuiz.setCorrectOption. cbn [CreateQuiz.questions].
  intros Hin Hid o Ho. apply in_map_iff in Hin as (q & <- & _).
  destruct (String.eqb (CreateQuiz.q_id q) questionId) eqn:E.
  - cbn [CreateQuiz.options] in Ho. apply in_map_iff in Ho as (o0 & <- & _).
    reflexivity.
  - apply String.eqb_neq in E. contradiction.
Qed.

Lemma setCorrectOption_others questionId optionId prev q :
  In q (CreateQuiz.questions prev) ->
  CreateQuiz.q_id q <> questionId ->
  In q (CreateQuiz.questions (CreateQuiz.setCorrectOption questionId optionId prev)).
Proof.
  intros Hin Hne. unfold CreateQuiz.setCorrectOption. cbn [CreateQuiz.questions].
  apply in_map_iff. exists q. split; [|exact Hin].
  now rewrite (proj2 (String.eqb_neq _ _) Hne).
Qed.

Lemma none_marked opts optionId :
  (forall o, In o opts ->
     CreateQuiz.isCorrect o = String.eqb (CreateQuiz.o_id o) optionId) ->
  ~ In optionId (map CreateQuiz.o_id opts) ->
  List.filter CreateQuiz.isCorrect opts = [].
Proof.
  induction opts as [|o opts IH]; intros Hmark Hnot; [reflexivity|].
  cbn [List.filter]. rewrite (Hmark o) by now left.
  rewrite (proj2 (String.eqb_neq _ _)).
  - apply IH; [intros o' Ho'; apply Hmark; now right|].
    intros Hin. apply Hnot. now right.
  - intros Heq. apply Hnot. left. exact Heq.
Qed.

Lemma one_marked opts optionId :
  (forall o, In o opts ->
     CreateQuiz.isCorrect o = String.eqb (CreateQuiz.o_id o) optionId) ->
  List.NoDup (map CreateQuiz.o_id opts) ->
  In optionId (map CreateQuiz.o_id opts) ->
  length (List.filter CreateQuiz.isCorrect opts) = 1%nat.
Proof.
  induction opts as [|o opts IH]; intros Hmark Hnd Hin; [destruct Hin|].
  cbn [map] in Hnd, Hin. apply List.NoDup_cons_iff in Hnd as [Hfresh Hnd].
  cbn [List.filter]. rewrite (Hmark o) by now left.
  destruct (String.eqb_spec (CreateQuiz.o_id o) optionId) as [Heq|Hne].
  - rewrite none_marked with (optionId := optionId); [reflexivity| |congruence].
    intros o' Ho'. apply Hmark. now right.
  - apply IH; [intros o' Ho'; apply Hmark; now right | exact Hnd |].
    destruct Hin as [Heq|Hin]; [contradiction | exact Hin].
Qed.

Lemma validate_questions_correct qs :
  CreateQuiz.validate_questions qs = true ->
  forall q, In q qs -> (1 <= CreateQuiz.correct_count q)%nat.
Proof.
  induction qs as [|question rest IH]; intros Hv q Hin; [destruct Hin|].
  cbn [CreateQuiz.validate_questions] in Hv.
  destruct (CreateQuiz.blank _); [discriminate|].
  destruct (_ || _); [discriminate|].
  destruct (_ <? 2)%nat; [discriminate|].
  destruct (0 <? _)%nat; [discriminate|].
  destruct (length (CreateQuiz.correctOptions question) =? 0)%nat eqn:E;
    [discriminate|].
  apply Nat.eqb_neq in E.
  destruct Hin as [<-|Hin]; [unfold CreateQuiz.correct_count; lia|].
  now apply IH.
Qed.

(** C9 (as amended): [setCorrectOption] leaves, in the question it is
    applied to, an option correct exactly when its id is the chosen id, so
    exactly one option is correct when the chosen id is the id of one option
    and the ids are distinct; other questions are left alone.  A quiz that
    passes validation has at least one correct option in every question, and
    a quiz with a question without a correct option fails validation and is
    not saved.  Validation does not look for a second correct option. *)
Theorem correct_option_invariant (questionId optionId : string)
    (prev quiz : CreateQuiz.QuizData) (editing user : option string)
    (accepted : nat -> bool) :
  (forall q',
     In q' (CreateQuiz.questions
              (CreateQuiz.setCorrectOption questionId optionId prev)) ->
     CreateQuiz.q_id q' = questionId ->
     (forall o, In o (CreateQuiz.options q') ->
        CreateQuiz.isCorrect o = String.eqb (CreateQuiz.o_id o) optionId) /\
     (List.NoDup (map CreateQuiz.o_id (CreateQuiz.options q')) ->
      In optionId (map CreateQuiz.o_id (CreateQuiz.options q')) ->
      CreateQuiz.correct_count q' = 1%nat)) /\
  (forall q, In q (CreateQuiz.questions prev) ->
     CreateQuiz.q_id q <> questionId ->
     In q (CreateQuiz.questions
             (CreateQuiz.setCorrectOption questionId optionId prev))) /\
  (CreateQuiz.validateQuiz quiz = true ->
   forall q, In q (CreateQuiz.questions quiz) ->
     (1 <= CreateQuiz.correct_count q)%nat) /\
  ((exists q, In q (CreateQuiz.questions quiz) /\
              CreateQuiz.correct_count q = 0%nat) ->
   CreateQuiz.validateQuiz quiz = false /\
   CreateQuiz.saveQuiz editing user accepted quiz = []).
Proof.
  assert (CreateQuiz.validateQuiz quiz = true ->
          forall q, In q (CreateQuiz.questions quiz) ->
            (1 <= CreateQuiz.correct_count q)%nat) as Hvalid.
  { unfold CreateQuiz.validateQuiz.
    destruct (CreateQuiz.blank _); [discriminate|].
    destruct (_ =? 0)%nat; [discriminate|].
    apply validate_questions_correct. }
  split; [|split; [|split]].
  - intros q' Hin Hid.
    pose proof (setCorrectOption_marks _ _ _ _ Hin Hid) as Hmark.
    split; [exact Hmark|].
    intros Hnd Hchosen. now apply (one_marked _ optionId).
  - apply setCorrectOption_others.
  - exact Hvalid.
  - intros (q & Hin & Hzero).
    assert (CreateQuiz.validateQuiz quiz = false) as Hrej.
    { destruct (CreateQuiz.validateQuiz quiz) eqn:E; [|reflexivity].
      specialize (Hvalid eq_refl q Hin). lia. }
    split; [exact Hrej|].
    unfold CreateQuiz.saveQuiz. now rewrite Hrej.
Qed.

(** C9, the claim as stated fails: a quiz whose question has two correct
    options passes validation and its two correct options are sent to the
    store. *)
Lemma two_correct_options_saved :
  CreateQuiz.validateQuiz two_correct_quiz = true /\
  CreateQuiz.saveQuiz None (Some "user-1") (fun _ => true) two_correct_quiz
  = [ CreateQuiz.insert_quiz "Capitals" "" "user-1";
      CreateQuiz.insert_question "Capital of France?" 30;
      CreateQuiz.insert_options [("Paris", true); ("Lyon", true)] ].
Proof. split; vm_compute; reflexivity. Qed.

(** * Further properties *)

(** ** The host screen as a state machine *)

Lemma run_invariant (P : HostState -> Prop) :
  (forall s e, P s -> P (step s e)) ->
  forall events s, P s -> P (run events s).
Proof.
  intros Hstep events. unfold run.
  induction events as [|e events IH]; intros s Hs; cbn [foldl]; [exact Hs|].
  apply IH, Hstep, Hs.
Qed.

Lemma startTimer_in_keeps qs i secs s :
  questions (startTimer_in qs i secs s) = questions s /\
  currentQuestionIndex (startTimer_in qs i secs s) = currentQuestionIndex s /\
  session (startTimer_in qs i secs s) = session s /\
  gameEnded (startTimer_in qs i secs s) = gameEnded s.
Proof. unfold startTimer_in. destruct (js_index qs i); cbn; auto. Qed.

Lemma startTimer_questions i secs s : questions (startTimer i secs s) = questions s.
Proof. apply startTimer_in_keeps. Qed.

Lemma step_questions s e : questions (step s e) = questions s.
Proof.
  destruct e; cbn [step].
  - unfold startGame. destruct (questions s) eqn:E; [exact E|].
    destruct update_ok; cbn [negb]; [|cbn; exact E].
    rewrite startTimer_questions. cbn. exact E.
  - unfold tick. destruct (timerRef s); [|reflexivity].
    now destruct (time_is_up _).
  - reflexivity.
  - unfold nextQuestion. now destruct (_ >=? _).
  - reflexivity.
  - unfold run_scheduled. destruct (scheduled s) as [|[i secs] rest];
      [reflexivity|].
    now rewrite startTimer_questions.
  - reflexivity.
  - reflexivity.
  - reflexivity.
Qed.

Lemma startTimer_index i secs s :
  currentQuestionIndex (startTimer i secs s) = currentQuestionIndex s.
Proof. apply startTimer_in_keeps. Qed.

Lemma startTimer_session i secs s : session (startTimer i secs s) = session s.
Proof. apply startTimer_in_keeps. Qed.

Lemma startTimer_gameEnded i secs s : gameEnded (startTimer i secs s) = gameEnded s.
Proof. apply startTimer_in_keeps. Qed.

Lemma tick_keeps s :
  currentQuestionIndex (tick s) = currentQuestionIndex s /\
  session (tick s) = session s /\
  gameEnded (tick s) = gameEnded s.
Proof.
  unfold tick. destruct (timerRef s); [|auto].
  destruct (time_is_up _); auto.
Qed.

Lemma run_scheduled_keeps s :
  currentQuestionIndex (run_scheduled s) = currentQuestionIndex s /\
  session (run_scheduled s) = session s /\
  gameEnded (run_scheduled s) = gameEnded s.
Proof.
  unfold run_scheduled. destruct (scheduled s) as [|[i secs] rest]; [auto|].
  now rewrite startTimer_index, startTimer_session, startTimer_gameEnded.
Qed.

(** What [startGame] leaves when it goes through. *)
Lemma startGame_started s q0 rest :
  questions s = q0 :: rest ->
  currentQuestionIndex (startGame true s) = 0 /\
  session (startGame true s)
    = {| host_id := host_id (session s);
         status := "active";
         current_question_index := Some 0 |} /\
  gameEnded (startGame true s) = gameEnded s.
Proof.
  intros Hq. unfold startGame. rewrite Hq. cbn [negb].
  rewrite startTimer_index, startTimer_session, startTimer_gameEnded.
  cbn. auto.
Qed.

Lemma startTimer_in_first_render i T s :
  startTimer_in first_render_questions i T s = clear_timers s.
Proof.
  unfold startTimer_in, first_render_questions. now rewrite js_index_nil.
Qed.

Lemma step_row_agrees s e :
  updates_accepted [e] = true -> row_agrees s -> row_agrees (step s e).
Proof.
  unfold row_agrees. intros Hok Hs. destruct e; cbn [step].
  - destruct (questions s) as [|q0 rest] eqn:Hq.
    + unfold startGame. now rewrite Hq.
    + destruct update_ok.
      * destruct (startGame_started s q0 rest Hq) as (-> & -> & _). now left.
      * unfold startGame. rewrite Hq. cbn. exact Hs.
  - destruct (tick_keeps s) as (-> & -> & ->). exact Hs.
  - exact Hs.
  - cbn in Hok. rewrite andb_true_r in Hok. subst update_ok.
    unfold nextQuestion. destruct (_ >=? _); cbn; auto.
  - cbn. destruct Hs as [Hs|[Hs _]]; auto.
  - destruct (run_scheduled_keeps s) as (-> & -> & ->). exact Hs.
  - exact Hs.
  - exact Hs.
  - exact Hs.
Qed.

Lemma fetchGameData_row_agrees st user s :
  fetchGameData st user = Some s -> row_agrees s.
Proof.
  unfold fetchGameData, row_agrees.
  destruct (game_sessions st) as [row|]; [|discriminate].
  destruct (negb _); [discriminate|].
  destruct (current_question_index row) as [idx|] eqn:Hrow.
  - destruct (_ && _).
    + destruct (js_index _ idx).
      * intros [= <-]. rewrite startTimer_in_first_render. cbn. auto.
      * intros [= <-]. cbn. auto.
    + intros [= <-]. cbn. auto.
  - intros [= <-]. cbn. auto.
Qed.

(** X1: as long as the store accepts the updates of the session row that
    [nextQuestion] asks for, the question index stored in the session row
    is the index the host is at, or it is null with the host still on the
    start screen or past the end of the game, whatever happens on a host
    screen after it loaded a session and whichever render each handler
    stems from.  (The error of such an update is not read, so that a
    refused one leaves the row behind the host.) *)
Theorem stored_index_follows_host (st : Store) (user : option string)
    (s : HostState) (events : list HostEvent) :
  fetchGameData st user = Some s ->
  updates_accepted events = true ->
  row_agrees (run events s).
Proof.
  intros Hload. pose proof (fetchGameData_row_agrees st user s Hload) as Hs.
  clear Hload. revert s Hs. unfold run.
  induction events as [|e events IH]; intros s Hs Hok; cbn [foldl];
    [exact Hs|].
  cbn [updates_accepted forallb] in Hok. apply andb_prop in Hok as [He Hrest].
  apply IH; [|exact Hrest].
  apply step_row_agrees; [|exact Hs].
  cbn [updates_accepted forallb]. now rewrite He.
Qed.

Lemma stored_index_follows_host_witness :
  current_question_index (session (run played_to_end sample_lobby)) = None.
Proof.
  destruct (stored_index_follows_host lobby_store (Some "host-1") sample_lobby
              played_to_end eq_refl eq_refl) as [H|[H _]].
  - vm_compute in H. discriminate H.
  - exact H.
Defined.

Lemma step_index_in_range s e :
  from_render s e = true -> index_in_range s -> index_in_range (step s e).
Proof.
  unfold index_in_range. rewrite step_questions. intros Hfrom Hs.
  destruct e; cbn [step]; try exact Hs.
  - destruct (questions s) as [|q0 rest] eqn:Hq.
    + unfold startGame. now rewrite Hq.
    + destruct update_ok.
      * destruct (startGame_started s q0 rest Hq) as (-> & _).
        right. cbn [length]. lia.
      * unfold startGame. rewrite Hq. cbn. exact Hs.
  - destruct (tick_keeps s) as (-> & _). exact Hs.
  - cbn [from_render] in Hfrom. unfold nextQuestion.
    destruct (_ >=? _) eqn:E; cbn [currentQuestionIndex clear_timers];
      [exact Hs|].
    rewrite Z.geb_leb in E. apply Z.leb_gt in E.
    apply orb_prop in Hfrom as [Hcur|Hprev];
      [apply Z.eqb_eq in Hcur|apply Z.eqb_eq in Hprev]; lia.
  - destruct (run_scheduled_keeps s) as (-> & _). exact Hs.
Qed.

Lemma step_index_monotone s e :
  from_render s e = true ->
  currentQuestionIndex s <= currentQuestionIndex (step s e).
Proof.
  intros Hfrom. destruct e; cbn [step]; try reflexivity.
  - cbn [from_render] in Hfrom. apply Z.leb_le in Hfrom.
    destruct (questions s) as [|q0 rest] eqn:Hq.
    + unfold startGame. now rewrite Hq.
    + destruct update_ok.
      * destruct (startGame_started s q0 rest Hq) as (-> & _). lia.
      * unfold startGame. rewrite Hq. cbn. lia.
  - destruct (tick_keeps s) as (-> & _). lia.
  - cbn [from_render] in Hfrom. unfold nextQuestion.
    destruct (_ >=? _); cbn [currentQuestionIndex clear_timers]; [lia|].
    apply orb_prop in Hfrom as [Hcur|Hprev];
      [apply Z.eqb_eq in Hcur|apply Z.eqb_eq in Hprev]; lia.
  - destruct (run_scheduled_keeps s) as (-> & _). lia.
Qed.

Lemma rendered_question_exists s :
  index_in_range s ->
  screen s = ResultsView \/ screen s = QuestionView ->
  is_Some (js_index (questions s) (currentQuestionIndex s)).
Proof.
  unfold index_in_range, screen, js_index. intros Hs Hscreen.
  destruct (gameEnded s); [destruct Hscreen; discriminate|].
  destruct (currentQuestionIndex s =? -1) eqn:E;
    [destruct Hscreen; discriminate|].
  apply Z.eqb_neq in E. destruct Hs as [Hs|Hs]; [contradiction|].
  rewrite (proj2 (Z.ltb_ge _ _)) by lia.
  apply lookup_lt_is_Some. lia.
Qed.

(** X2: the host's question index never goes down, and it stays the index
    of the start screen or of an existing question, so that the question
    and results views always have a question to render.  This holds along
    every sequence of events in which the start button is clicked with the
    host at the first question at most (on the start screen, or once more
    before the first click has taken effect) and every click on "Next" runs
    with the index of a render that the host is at or has just left (a
    click on the button as rendered, or a further click before it has
    gone); the button for ending the quiz, the timers and the notifications
    are not restricted. *)
Theorem index_never_goes_back (events : list HostEvent) (s : HostState) :
  index_in_range s ->
  from_render_all events s = true ->
  currentQuestionIndex s <= currentQuestionIndex (run events s) /\
  index_in_range (run events s) /\
  (screen (run events s) = ResultsView \/ screen (run events s) = QuestionView ->
   is_Some (js_index (questions (run events s))
                     (currentQuestionIndex (run events s)))).
Proof.
  revert s. unfold run.
  induction events as [|e events IH]; intros s Hs Hfrom; cbn [foldl].
  - split; [lia|]. split; [exact Hs|]. now apply rendered_question_exists.
  - cbn [from_render_all] in Hfrom. apply andb_prop in Hfrom as [He Hrest].
    destruct (IH (step s e) (step_index_in_range s e He Hs) Hrest)
      as (Hle & Hrange & Hrender).
    pose proof (step_index_monotone s e He).
    split; [lia|]. split; [exact Hrange|exact Hrender].
Qed.

Lemma index_never_goes_back_witness :
  from_render_all next_clicked_twice (lobby_of three_questions) = true /\
  -1 <= currentQuestionIndex (run next_clicked_twice (lobby_of three_questions)).
Proof.
  split; [vm_compute; reflexivity|].
  exact (proj1 (index_never_goes_back next_clicked_twice
                  (lobby_of three_questions)
                  (or_introl eq_refl) eq_refl)).
Defined.

Lemma js_index_head {A} (x : A) l : js_index (x :: l) 0 = Some x.
Proof. reflexivity. Qed.

Lemma js_index_Some_lt {A} (l : list A) i x :
  js_index l i = Some x -> 0 <= i < Z.of_nat (length l).
Proof.
  unfold js_index. destruct (i <? 0) eqn:E; [discriminate|].
  apply Z.ltb_ge in E. intros H%lookup_lt_Some. lia.
Qed.

Lemma startTimer_armed i T s q :
  js_index (questions s) i = Some q ->
  startTimer i T s
  = {| questions := questions s;
       players := players s;
       currentQuestionIndex := currentQuestionIndex s;
       timeLeft := T;
       showResults := false;
       gameEnded := gameEnded s;
       isCalculatingResults := false;
       tally := zero_tally i q;
       isPolling := true;
       pollingRef := Some i;
       timerRef := Some {| cd_question := i; cd_currentTime := T |};
       session := session s;
       sent := sent s ++ [question_started i T];
       scheduled := scheduled s |}.
Proof.
  intros Hq. unfold startTimer, startTimer_in. now rewrite Hq.
Qed.

(** X3: [startGame] does nothing at all for a quiz without questions, and
    when the update of the session row fails it stops the timers and leaves
    index, row, tally and broadcasts as they were.  When it goes through,
    the host is at question 0 with the row active at index 0, the countdown
    armed at the full time limit of the first question, a tally of zeros
    for its options, and [game_started] then [question_started] sent. *)
Theorem startGame_effects (ok : bool) (s : HostState) :
  (questions s = [] -> startGame ok s = s) /\
  (currentQuestionIndex (startGame false s) = currentQuestionIndex s /\
   session (startGame false s) = session s /\
   tally (startGame false s) = tally s /\
   sent (startGame false s) = sent s) /\
  (forall q0 rest, questions s = q0 :: rest ->
     currentQuestionIndex (startGame true s) = 0 /\
     session (startGame true s)
       = {| host_id := host_id (session s);
            status := "active";
            current_question_index := Some 0 |} /\
     timeLeft (startGame true s) = Some (time_limit q0) /\
     timerRef (startGame true s)
       = Some {| cd_question := 0; cd_currentTime := Some (time_limit q0) |} /\
     tally (startGame true s) = zero_tally 0 q0 /\
     showResults (startGame true s) = false /\
     players (startGame true s) = players s /\
     sent (startGame true s)
       = sent s ++ [ game_started (Z.of_nat (length (questions s)));
                     question_started 0 (Some (time_limit q0)) ]).
Proof.
  split; [|split].
  - intros Hq. unfold startGame. now rewrite Hq.
  - unfold startGame. destruct (questions s); cbn; auto.
  - intros q0 rest Hq. unfold startGame. rewrite Hq. cbn [negb].
    erewrite startTimer_armed by (cbn [questions clear_timers]; rewrite Hq;
                                  apply js_index_head).
    cbn. rewrite Hq, <- app_assoc. repeat split; reflexivity.
Qed.

Lemma fetchGameData_shape st user s :
  fetchGameData st user = Some s ->
  exists row,
    game_sessions st = Some row /\
    user = Some (host_id row) /\
    session s = row /\
    questions s = stored_questions st /\
    currentQuestionIndex s = default (-1) (current_question_index row) /\
    gameEnded s = false /\
    showResults s = false /\
    never_expires s /\
    existsb is_time_up (sent s) = false.
Proof.
  unfold fetchGameData.
  destruct (game_sessions st) as [row|]; [|discriminate].
  case_bool_decide as Huser; cbn [negb]; [|discriminate].
  intros Hs. exists row. split; [reflexivity|]. split; [exact Huser|].
  destruct (current_question_index row) as [idx|].
  - destruct (_ && _).
    + destruct (js_index _ idx) as [question|].
      * injection Hs as <-. rewrite startTimer_in_first_render.
        cbn. repeat split; reflexivity.
      * injection Hs as <-. cbn. repeat split; reflexivity.
    + injection Hs as <-. cbn. repeat split; reflexivity.
  - injection Hs as <-. cbn. repeat split; reflexivity.
Qed.

(** X4: only the host of a session gets its host screen: when
    [fetchGameData] yields a state, the session exists and the signed-in
    user is its host.  The state then holds the stored questions and
    players, the stored index (or -1 for none), no ended game and no
    results, and every player with score 0 and completion time 0. *)
Theorem fetchGameData_host_only (st : Store) (user : option string)
    (s : HostState) :
  fetchGameData st user = Some s ->
  exists row,
    game_sessions st = Some row /\
    user = Some (host_id row) /\
    session s = row /\
    questions s = stored_questions st /\
    players s = formattedPlayers (game_players st) /\
    currentQuestionIndex s = default (-1) (current_question_index row) /\
    gameEnded s = false /\
    showResults s = false /\
    Forall (fun p => score p = 0 /\ totalCompletionTime p = Some 0) (players s).
Proof.
  intros Hload.
  destruct (fetchGameData_shape st user s Hload)
    as (row & H1 & H2 & H3 & H4 & H5 & H6 & H7 & _).
  exists row. repeat (split; [assumption|]).
  rewrite (fetchGameData_players st user s Hload).
  split; [reflexivity|]. split; [assumption|]. split; [assumption|].
  split; [assumption|].
  unfold formattedPlayers. apply Forall_map, Forall_forall.
  intros r _. cbn. auto.
Qed.

Lemma fetchGameData_host_only_witness :
  exists row, game_sessions lobby_store = Some row /\
              Some "host-1" = Some (host_id row).
Proof.
  destruct (fetchGameData_host_only lobby_store (Some "host-1") sample_lobby
              eq_refl) as (row & H1 & H2 & _).
  exists row. split; [exact H1 | exact H2].
Defined.

Lemma tick_never_expires s :
  never_expires s ->
  never_expires (tick s) /\ sent (tick s) = sent s /\
  showResults (tick s) = showResults s.
Proof.
  unfold never_expires, tick.
  destruct (timerRef s) as [cd|] eqn:Hcd; [|rewrite Hcd; auto].
  intros ->. cbn. auto.
Qed.

(** X5: a host screen that reloads a session never lets a question run out
    of time by itself: however often the interval callback runs on the
    loaded state, no [time_up] is broadcast and the results are not shown. *)
Theorem reloaded_host_never_times_up (st : Store) (user : option string)
    (s : HostState) (k : nat) :
  fetchGameData st user = Some s ->
  existsb is_time_up (sent (Nat.iter k tick s)) = false /\
  showResults (Nat.iter k tick s) = false /\
  never_expires (Nat.iter k tick s).
Proof.
  intros Hload.
  destruct (fetchGameData_shape st user s Hload)
    as (row & _ & _ & _ & _ & _ & _ & Hres & Hnever & Hsent).
  induction k as [|k (IH1 & IH2 & IH3)]; [auto|].
  rewrite Nat.iter_succ.
  destruct (tick_never_expires _ IH3) as (H1 & -> & ->). auto.
Qed.

Lemma reloaded_host_never_times_up_witness :
  showResults
    (Nat.iter 60 tick
       (default sample_lobby (fetchGameData active_store (Some "host-1"))))
  = false.
Proof.
  exact (proj1 (proj2 (reloaded_host_never_times_up active_store (Some "host-1")
                         _ 60 eq_refl))).
Defined.

(** X6: "Next", clicked in a render at index [i] with a question [i+1],
    followed by the deferred [startTimer], puts the host on question [i+1]
    with its countdown armed at that question's full time limit, a tally of
    zeros for its options, no results shown, and [question_changed] then
    [question_started] sent.  The session row holds the new index when the
    store accepts the update, and the index it held before when it does
    not. *)
Theorem next_question_armed (cqi : Z) (ok : bool)
    (fetched : option (list Answer)) (s : HostState) (q : Question) :
  scheduled s = [] ->
  js_index (questions s) (cqi + 1) = Some q ->
  currentQuestionIndex (run_scheduled (nextQuestion cqi ok fetched s))
    = cqi + 1 /\
  current_question_index
    (session (run_scheduled (nextQuestion cqi ok fetched s)))
    = (if ok then Some (cqi + 1) else current_question_index (session s)) /\
  timeLeft (run_scheduled (nextQuestion cqi ok fetched s))
    = Some (time_limit q) /\
  timerRef (run_scheduled (nextQuestion cqi ok fetched s))
    = Some {| cd_question := cqi + 1;
              cd_currentTime := Some (time_limit q) |} /\
  tally (run_scheduled (nextQuestion cqi ok fetched s))
    = zero_tally (cqi + 1) q /\
  showResults (run_scheduled (nextQuestion cqi ok fetched s)) = false /\
  scheduled (run_scheduled (nextQuestion cqi ok fetched s)) = [] /\
  sent (run_scheduled (nextQuestion cqi ok fetched s))
    = sent s ++ [ question_changed (cqi + 1);
                  question_started (cqi + 1) (Some (time_limit q)) ].
Proof.
  intros Hsched Hq. pose proof (js_index_Some_lt _ _ _ Hq) as Hlt.
  rewrite nextQuestion_advances by lia. rewrite Hq, Hsched.
  unfold run_scheduled. cbn [scheduled app].
  erewrite startTimer_armed by (cbn [questions]; exact Hq).
  cbn. rewrite <- app_assoc. destruct ok; repeat split; reflexivity.
Qed.

Lemma next_question_armed_witness :
  timeLeft (run_scheduled (nextQuestion 0 false None first_results)) = Some 30 /\
  current_question_index
    (session (run_scheduled (nextQuestion 0 false None first_results)))
  = Some 0.
Proof.
  pose proof (next_question_armed 0 false None first_results sample_question
                eq_refl eq_refl) as (_ & Hrow & Htime & _).
  split; [exact Htime | exact Hrow].
Defined.

(** ** The tally along a session *)

Lemma zero_tally_sound qi q : tally_sound (zero_tally qi q).
Proof.
  split; cbn [zero_tally answerStats totalAnswers].
  - intros k v Hk. apply init_stats_zero in Hk. lia.
  - rewrite sum_counts_all_zero; [lia|]. apply init_stats_zero.
Qed.

Lemma count_answer_nonneg qi (m : gmap string Z) oid :
  (forall k v, m !! k = Some v -> 0 <= v) ->
  forall k v, count_answer qi m oid !! k = Some v -> 0 <= v.
Proof.
  intros Hm k v. unfold count_answer.
  destruct (m !! uniqueKey qi oid) as [n|] eqn:E; [|apply Hm].
  destruct (decide (uniqueKey qi oid = k)) as [<-|Hne].
  - rewrite lookup_insert_eq. intros [= <-]. specialize (Hm _ _ E). lia.
  - rewrite lookup_insert_ne by exact Hne. apply Hm.
Qed.

Lemma recount_sound qi q answers : tally_sound (recount qi q answers).
Proof.
  split.
  - unfold recount. cbn [answerStats].
    assert (forall m : gmap string Z,
              (forall k v, m !! k = Some v -> 0 <= v) ->
              forall k v, foldl (count_answer qi) m answers !! k = Some v ->
                          0 <= v) as Hfold.
    { induction answers as [|a answers IH]; intros m Hm; cbn [foldl];
        [exact Hm|].
      apply IH. now apply count_answer_nonneg. }
    apply Hfold. intros k v Hk. apply init_stats_zero in Hk. lia.
  - rewrite sum_counts_recount. cbn [recount totalAnswers].
    pose proof (List.filter_length_le (belongs_to q) answers). lia.
Qed.

Lemma bump_tally_sound uk t : tally_sound t -> tally_sound (bump_tally uk t).
Proof.
  intros [Hnonneg Hsum]. unfold bump_tally.
  destruct (answerStats t !! uk) as [n|] eqn:E; split;
    cbn [answerStats totalAnswers].
  - intros k v. destruct (decide (uk = k)) as [<-|Hne].
    + rewrite lookup_insert_eq. intros [= <-]. specialize (Hnonneg _ _ E). lia.
    + rewrite lookup_insert_ne by exact Hne. apply Hnonneg.
  - rewrite (sum_counts_insert_known _ _ n) by exact E. lia.
  - exact Hnonneg.
  - lia.
Qed.

Lemma refreshAnswerStats_sound qs cqi qi fetched t :
  tally_sound t -> tally_sound (refreshAnswerStats qs cqi qi fetched t).
Proof.
  intros Ht. unfold refreshAnswerStats.
  destruct (qi <? 0); [exact Ht|].
  destruct (js_index qs qi); [|exact Ht].
  destruct fetched; [|exact Ht].
  destruct (qi =? cqi); [apply recount_sound | exact Ht].
Qed.

Lemma startTimer_in_tally_sound qs i T s :
  tally_sound (tally s) -> tally_sound (tally (startTimer_in qs i T s)).
Proof.
  intros Hs. unfold startTimer_in.
  destruct (js_index qs i) as [q|]; cbn [tally];
    [apply (zero_tally_sound i q) | exact Hs].
Qed.

Lemma startTimer_tally_sound i T s :
  tally_sound (tally s) -> tally_sound (tally (startTimer i T s)).
Proof. apply startTimer_in_tally_sound. Qed.

Lemma step_tally_sound s e :
  tally_sound (tally s) -> tally_sound (tally (step s e)).
Proof.
  intros Hs. destruct e; cbn [step].
  - unfold startGame. destruct (questions s) as [|q0 rest] eqn:Hq; [exact Hs|].
    destruct update_ok; cbn [negb]; [|exact Hs].
    erewrite startTimer_armed by (cbn [questions clear_timers]; rewrite Hq;
                                  apply js_index_head).
    apply zero_tally_sound.
  - unfold tick. destruct (timerRef s); [|exact Hs].
    now destruct (time_is_up _).
  - now apply refreshAnswerStats_sound.
  - unfold nextQuestion. now destruct (_ >=? _).
  - exact Hs.
  - unfold run_scheduled. destruct (scheduled s) as [|[i T] rest]; [exact Hs|].
    now apply startTimer_tally_sound.
  - cbn [on_answer_insert tally].
    destruct (_ =? _); [now apply bump_tally_sound | exact Hs].
  - cbn [with_tally tally]. unfold on_answer_submitted.
    destruct (_ =? _); [now apply bump_tally_sound | exact Hs].
  - cbn [with_tally tally]. now apply refreshAnswerStats_sound.
Qed.

Lemma fetchGameData_tally_sound st user s :
  fetchGameData st user = Some s -> tally_sound (tally s).
Proof.
  assert (tally_sound {| answerStats := ∅; totalAnswers := 0 |}) as Hempty.
  { split; cbn.
    - intros k v Hk. rewrite lookup_empty in Hk. discriminate Hk.
    - rewrite sum_counts_empty. lia. }
  unfold fetchGameData.
  destruct (game_sessions st) as [row|]; [|discriminate].
  destruct (negb _); [discriminate|].
  destruct (current_question_index row) as [idx|].
  - destruct (_ && _).
    + destruct (js_index _ idx).
      * intros [= <-]. now apply startTimer_in_tally_sound.
      * now intros [= <-].
    + now intros [= <-].
  - now intros [= <-].
Qed.

(** X7: whatever happens on a host screen after it loaded a session (start,
    ticks, refreshes, notifications delivered any number of times), no
    count of the tally is negative and the counts never add up to more than
    the number of answers shown. *)
Theorem tally_stays_sound (st : Store) (user : option string) (s : HostState)
    (events : list HostEvent) :
  fetchGameData st user = Some s ->
  tally_sound (tally (run events s)).
Proof.
  intros Hload.
  apply (run_invariant (fun s => tally_sound (tally s))).
  - apply step_tally_sound.
  - exact (fetchGameData_tally_sound st user s Hload).
Qed.

Lemma tally_stays_sound_witness :
  sum_counts (answerStats (tally (run sample_events sample_lobby)))
  <= totalAnswers (tally (run sample_events sample_lobby)).
Proof.
  exact (proj2 (tally_stays_sound lobby_store (Some "host-1") sample_lobby
                  sample_events eq_refl)).
Defined.

Lemma init_stats_is_Some qi q k :
  is_Some (init_stats qi (options q) !! k) <->
  exists o, In o (options q) /\ k = uniqueKey qi (opt_id o).
Proof.
  unfold init_stats. rewrite init_fold_lookup, lookup_empty.
  destruct (existsb _ (options q)) eqn:E.
  - apply existsb_exists in E as (o & Ho & Heq). apply String.eqb_eq in Heq.
    split; [intros _; exists o; auto | intros _; eauto].
  - split; [intros [? ?]; discriminate|].
    intros (o & Ho & ->).
    assert (existsb (fun o0 => String.eqb (uniqueKey qi (opt_id o0))
                                  (uniqueKey qi (opt_id o))) (options q) = true)
      as Habs.
    { apply existsb_exists. exists o. split; [exact Ho | apply String.eqb_refl]. }
    rewrite Habs in E. discriminate E.
Qed.

Lemma foldl_count_answer_is_Some qi answers k : forall m : gmap string Z,
  is_Some (foldl (count_answer qi) m answers !! k) <-> is_Some (m !! k).
Proof.
  induction answers as [|a answers IH]; intros m; cbn [foldl]; [reflexivity|].
  rewrite IH. apply count_answer_is_Some.
Qed.

(** X8: the entries of the tally are exactly the options of the question:
    a fresh tally and a recount of the stored rows have an entry for each
    option of the question and for nothing else, whatever option ids the
    rows carry, and an optimistic update neither adds nor removes an
    entry. *)
Theorem tally_entries_are_options (qi : Z) (q : Question) (answers : list string)
    (uk : string) (t : Tally) (k : string) :
  (is_Some (answerStats (zero_tally qi q) !! k) <->
   exists o, In o (options q) /\ k = uniqueKey qi (opt_id o)) /\
  (is_Some (answerStats (recount qi q answers) !! k) <->
   exists o, In o (options q) /\ k = uniqueKey qi (opt_id o)) /\
  (is_Some (answerStats (bump_tally uk t) !! k) <->
   is_Some (answerStats t !! k)).
Proof.
  split; [apply init_stats_is_Some|]. split.
  - unfold recount. cbn [answerStats].
    rewrite foldl_count_answer_is_Some. apply init_stats_is_Some.
  - unfold bump_tally. cbn [answerStats].
    destruct (answerStats t !! uk) as [n|] eqn:E; [|reflexivity].
    destruct (decide (uk = k)) as [<-|Hne].
    + rewrite lookup_insert_eq, E. split; eauto.
    + now rewrite lookup_insert_ne.
Qed.

(** ** The board along a session *)

Lemma kept_player_refl p : kept_player p p.
Proof. unfold kept_player. repeat split; lia. Qed.

Lemma kept_player_trans p1 p2 p3 :
  kept_player p1 p2 -> kept_player p2 p3 -> kept_player p1 p3.
Proof.
  unfold kept_player. intros (-> & -> & -> & H1) (-> & -> & -> & H2).
  repeat split; lia.
Qed.

Lemma Forall2_kept_refl ps : Forall2 kept_player ps ps.
Proof. induction ps; constructor; auto using kept_player_refl. Qed.

Lemma Forall2_kept_trans ps1 ps2 ps3 :
  Forall2 kept_player ps1 ps2 -> Forall2 kept_player ps2 ps3 ->
  Forall2 kept_player ps1 ps3.
Proof.
  intros H12. revert ps3. induction H12 as [|p1 p2 ps1 ps2 Hp _ IH];
    intros ps3 H23; inversion H23; subst; constructor.
  - eapply kept_player_trans; eassumption.
  - now apply IH.
Qed.

Lemma add_points_kept a ps : Forall2 kept_player ps (add_points a ps).
Proof.
  unfold add_points. induction ps as [|p ps IH]; cbn [map]; constructor;
    [|exact IH].
  destruct (String.eqb (id p) (player_id a)); [|apply kept_player_refl].
  unfold kept_player, calculateScore. cbn. repeat split; lia.
Qed.

Lemma completion_times_kept fetched ps :
  Forall2 kept_player ps (calculatePlayerCompletionTimes fetched ps).
Proof.
  unfold calculatePlayerCompletionTimes.
  destruct fetched as [rows|]; [|apply Forall2_kept_refl].
  induction ps as [|p ps IH]; cbn [map]; constructor; [|exact IH].
  unfold kept_player. cbn. repeat split; lia.
Qed.

Lemma step_kept s e : Forall2 kept_player (players s) (players (step s e)).
Proof.
  destruct e; cbn [step].
  - rewrite startGame_players. apply Forall2_kept_refl.
  - rewrite tick_players. apply Forall2_kept_refl.
  - apply Forall2_kept_refl.
  - unfold nextQuestion. destruct (_ >=? _); cbn [players clear_timers];
      [apply completion_times_kept | apply Forall2_kept_refl].
  - apply completion_times_kept.
  - rewrite run_scheduled_players. apply Forall2_kept_refl.
  - cbn [on_answer_insert players].
    destruct (is_correct answer); [apply add_points_kept|apply Forall2_kept_refl].
  - apply Forall2_kept_refl.
  - apply Forall2_kept_refl.
Qed.

(** X9: the board of the host screen is fixed once it is loaded: whatever
    happens afterwards, it lists the same players in the same order, with
    their names and avatars, and no score ever goes down. *)
Theorem board_is_kept (events : list HostEvent) (s : HostState) :
  Forall2 kept_player (players s) (players (run events s)) /\
  map id (players (run events s)) = map id (players s) /\
  length (players (run events s)) = length (players s).
Proof.
  assert (Forall2 kept_player (players s) (players (run events s))) as Hkept.
  { revert s. unfold run. induction events as [|e events IH]; intros s;
      cbn [foldl]; [apply Forall2_kept_refl|].
    eapply Forall2_kept_trans; [apply step_kept | apply IH]. }
  split; [exact Hkept|]. split.
  - induction Hkept as [|p p' ps ps' (Hid & _) _ IH]; [reflexivity|].
    cbn [map]. now rewrite Hid, IH.
  - symmetry. eapply Forall2_length, Hkept.
Qed.

(** X10: the score is not tied to the current question.  An insert
    notification for another question than the current one leaves the tally
    as it is, but when the answer is correct it still adds 100 to the score
    shown for its player; an incorrect answer changes no player. *)
Theorem stale_insert_still_scores (cqi : Z) (a : Answer) (s : HostState) :
  question_index a <> cqi ->
  tally (on_answer_insert cqi a s) = tally s /\
  (is_correct a = true ->
   displayed_score (player_id a) (players (on_answer_insert cqi a s))
   = Z.add 100 <$> displayed_score (player_id a) (players s)) /\
  (is_correct a = false -> players (on_answer_insert cqi a s) = players s).
Proof.
  intros Hstale. cbn [on_answer_insert tally players].
  rewrite (proj2 (Z.eqb_neq _ _) Hstale).
  split; [reflexivity|]. split; intros ->; [|reflexivity].
  rewrite displayed_score_add_points, String.eqb_refl.
  destruct (displayed_score _ _); cbn; [f_equal; lia | reflexivity].
Qed.

Lemma stale_insert_still_scores_witness :
  displayed_score "p1"
    (players (on_answer_insert 1 (sample_row "p1" "X" true) sample_lobby))
  = Some 100.
Proof.
  destruct (stale_insert_still_scores 1 (sample_row "p1" "X" true) sample_lobby)
    as (_ & H & _); [discriminate|].
  exact (H eq_refl).
Defined.

(** ** Ranks *)

Lemma completion_times_scores fetched ps :
  map score (calculatePlayerCompletionTimes fetched ps) = map score ps.
Proof.
  unfold calculatePlayerCompletionTimes. destruct fetched; [|reflexivity].
  rewrite List.map_map. reflexivity.
Qed.

Lemma leader_of_board board :
  board <> [] ->
  exists first rest,
    sortedPlayers board = first :: rest /\
    In first board /\
    forall p, In p board -> ranks_before first p.
Proof.
  intros Hne.
  pose proof (sortedPlayers_Permutation board) as HP.
  pose proof (sortedPlayers_sorted board) as HS.
  destruct (sortedPlayers board) as [|first rest] eqn:E.
  - apply Permutation_sym, Permutation_nil in HP. contradiction.
  - exists first, rest. split; [reflexivity|]. split.
    + apply (Permutation_in first (Permutation_sym HP)). now left.
    + intros p Hp. apply (Permutation_in p HP) in Hp.
      apply StronglySorted_inv in HS as [_ Hall].
      destruct Hp as [<-|Hp]; [unfold ranks_before; lia|].
      rewrite List.Forall_forall in Hall. exact (Hall p Hp).
Qed.

Lemma top_score_of_scores board board' first first' :
  map score board' = map score board ->
  In first board -> (forall p, In p board -> score p <= score first) ->
  In first' board' -> (forall p, In p board' -> score p <= score first') ->
  score first' = score first.
Proof.
  intros Hscores Hin Hmax Hin' Hmax'.
  assert (score first <= score first').
  { apply (in_map score) in Hin. rewrite <- Hscores in Hin.
    apply in_map_iff in Hin as (p & <- & Hp). now apply Hmax'. }
  assert (score first' <= score first).
  { apply (in_map score) in Hin'. rewrite Hscores in Hin'.
    apply in_map_iff in Hin' as (p & <- & Hp). now apply Hmax. }
  lia.
Qed.

(** X11: the leader under the results and the leader at game over.  The
    results view sorts the board as it stands, the game-over screen sorts
    the board that "End Quiz" leaves, with the completion times just
    computed from the stored answers.  On a board that is not empty, the
    first entry under the results is a player with the highest score; the
    first entry at game over has that same score, and among the players
    with that score none has a shorter completion time.  So the leader can
    change between the two screens, but only among the players tied on the
    highest score.  "Next" under the results of the last question leaves
    the same board as "End Quiz". *)
Theorem leader_keeps_top_score (fetched : option (list Answer)) (s : HostState) :
  players s <> [] ->
  (forall cqi ok, Z.of_nat (length (questions s)) <= cqi + 1 ->
     players (nextQuestion cqi ok fetched s) = players (endQuiz fetched s)) /\
  exists first rest first' rest',
    results_leaderboard (players s) = first :: rest /\
    sortedPlayers (players (endQuiz fetched s)) = first' :: rest' /\
    In first (players s) /\
    (forall p, In p (players s) -> score p <= score first) /\
    In first' (players (endQuiz fetched s)) /\
    score first' = score first /\
    (forall p, In p (players (endQuiz fetched s)) ->
       score p <= score first' /\
       (score p = score first' ->
        or_zero (totalCompletionTime first')
        <= or_zero (totalCompletionTime p))).
Proof.
  intros Hne.
  split; [intros cqi ok Hge; now rewrite nextQuestion_ends by exact Hge|].
  cbn [endQuiz players].
  assert (calculatePlayerCompletionTimes fetched (players s) <> []) as Hne'.
  { intros Hnil. apply (f_equal (map score)) in Hnil.
    rewrite completion_times_scores in Hnil.
    destruct (players s); [contradiction|discriminate]. }
  destruct (leader_of_board _ Hne) as (first & rest & Hsorted & Hin & Hmax).
  destruct (leader_of_board _ Hne') as (first' & rest' & Hsorted' & Hin' & Hmax').
  assert (forall p, In p (players s) -> score p <= score first) as Htop.
  { intros p Hp. specialize (Hmax p Hp). unfold ranks_before in Hmax. lia. }
  assert (forall p, In p (calculatePlayerCompletionTimes fetched (players s)) ->
            score p <= score first') as Htop'.
  { intros p Hp. specialize (Hmax' p Hp). unfold ranks_before in Hmax'. lia. }
  exists first, (firstn 4 rest), first', rest'.
  split; [unfold results_leaderboard; fold (sortedPlayers (players s));
          now rewrite Hsorted|].
  split; [exact Hsorted'|]. split; [exact Hin|]. split; [exact Htop|].
  split; [exact Hin'|]. split.
  - apply (top_score_of_scores (players s)
             (calculatePlayerCompletionTimes fetched (players s)));
      auto using completion_times_scores.
  - intros p Hp. split; [now apply Htop'|].
    specialize (Hmax' p Hp). unfold ranks_before in Hmax'. lia.
Qed.

Lemma leader_keeps_top_score_witness :
  exists first first',
    head (results_leaderboard (players tied_results)) = Some first /\
    head (sortedPlayers (players (endQuiz (Some tied_rows) tied_results)))
    = Some first' /\
    score first' = score first.
Proof.
  assert (players tied_results <> []) as Hne by (vm_compute; discriminate).
  destruct (leader_keeps_top_score (Some tied_rows) tied_results Hne)
    as (_ & first & rest & first' & rest' & H1 & H2 & _ & _ & _ & H3 & _).
  exists first, first'. rewrite H1, H2. repeat split. exact H3.
Defined.

(** In the sample session the leader does change: [p1] and [p2] are tied
    on 100 points, [p1] comes first under the results, where no completion
    time is known yet, and [p2], who took 4 seconds against 9, comes first
    at game over. *)
Example leader_changes_at_game_over :
  id <$> head (results_leaderboard (players tied_results)) = Some "p1" /\
  id <$> head (sortedPlayers (players (endQuiz (Some tied_rows) tied_results)))
  = Some "p2".
Proof. split; vm_compute; reflexivity. Qed.

Lemma StronglySorted_map {A B} (f : A -> B) (R : A -> A -> Prop)
    (R' : B -> B -> Prop) l :
  (forall x y, R x y -> R' (f x) (f y)) ->
  StronglySorted R l -> StronglySorted R' (map f l).
Proof.
  intros HR. induction 1 as [|x l _ IH Hx]; cbn [map]; constructor; [exact IH|].
  apply List.Forall_forall. intros y (z & <- & Hz)%in_map_iff.
  rewrite List.Forall_forall in Hx. auto.
Qed.

Lemma descending_unique (l1 : list Z) : forall l2,
  StronglySorted Z.ge l1 -> StronglySorted Z.ge l2 -> Permutation l1 l2 ->
  l1 = l2.
Proof.
  induction l1 as [|a l1 IH]; intros l2 H1 H2 HP.
  - now apply Permutation_nil in HP.
  - destruct l2 as [|b l2];
      [apply Permutation_sym, Permutation_nil in HP; discriminate|].
    apply StronglySorted_inv in H1 as [H1 Ha].
    apply StronglySorted_inv in H2 as [H2 Hb].
    rewrite List.Forall_forall in Ha, Hb.
    assert (a = b) as ->.
    { assert (In a (b :: l2)) as Hina
        by (apply (Permutation_in a HP); now left).
      assert (In b (a :: l1)) as Hinb
        by (apply (Permutation_in b (Permutation_sym HP)); now left).
      destruct Hina as [->|Hina]; [reflexivity|].
      destruct Hinb as [->|Hinb]; [reflexivity|].
      specialize (Ha b Hinb). specialize (Hb a Hina). lia. }
    f_equal. apply IH; [exact H1 | exact H2 |].
    now apply Permutation_cons_inv in HP.
Qed.

Lemma csvSortedPlayers_sorted board :
  StronglySorted scores_before (csvSortedPlayers board).
Proof.
  apply js_sort_sorted; unfold csv_cmp, scores_before; intros; lia.
Qed.

(** X12: the leaderboard of the exported CSV ranks by score alone.  It holds
    every player once, scores never going up from one rank to the next, and
    keeps players with equal scores in the order of the board, whatever
    their completion times; rank by rank it shows the same scores as the
    game-over screen. *)
Theorem csv_ranks_by_score_only (board : list Player) :
  Permutation board (csvSortedPlayers board) /\
  StronglySorted scores_before (csvSortedPlayers board) /\
  (forall sc, List.filter (fun p => score p =? sc) (csvSortedPlayers board)
              = List.filter (fun p => score p =? sc) board) /\
  map score (csvSortedPlayers board) = map score (sortedPlayers board).
Proof.
  pose proof (js_sort_Permutation csv_cmp board) as HP.
  split; [exact HP|]. split; [apply csvSortedPlayers_sorted|]. split.
  - intros sc. apply js_sort_filter. intros x y Hx Hy.
    apply Z.eqb_eq in Hx, Hy. unfold csv_cmp. lia.
  - apply descending_unique.
    + eapply StronglySorted_map; [|apply csvSortedPlayers_sorted].
      unfold scores_before. intros; lia.
    + eapply StronglySorted_map; [|apply sortedPlayers_sorted].
      unfold ranks_before. intros; lia.
    + apply Permutation_map.
      rewrite <- HP. apply sortedPlayers_Permutation.
Qed.

(** ** Charts of the summary *)

Lemma push_question_filters stats : forall ranges,
  SummaryCharts.easy (foldl SummaryCharts.push_question ranges stats)
    = SummaryCharts.easy ranges
      ++ List.filter (SummaryCharts.has_difficulty SummaryCharts.Easy) stats /\
  SummaryCharts.medium (foldl SummaryCharts.push_question ranges stats)
    = SummaryCharts.medium ranges
      ++ List.filter (SummaryCharts.has_difficulty SummaryCharts.Medium) stats /\
  SummaryCharts.hard (foldl SummaryCharts.push_question ranges stats)
    = SummaryCharts.hard ranges
      ++ List.filter (SummaryCharts.has_difficulty SummaryCharts.Hard) stats /\
  SummaryCharts.very_hard (foldl SummaryCharts.push_question ranges stats)
    = SummaryCharts.very_hard ranges
      ++ List.filter (SummaryCharts.has_difficulty SummaryCharts.VeryHard) stats.
Proof.
  induction stats as [|q stats IH]; intros ranges; cbn [foldl List.filter].
  - now rewrite !app_nil_r.
  - destruct (IH (SummaryCharts.push_question ranges q)) as (-> & -> & -> & ->).
    unfold SummaryCharts.push_question, SummaryCharts.has_difficulty,
      SummaryCharts.difficulty.
    destruct (SummaryCharts.geb _ (num 80));
      [cbn; now rewrite <- !app_assoc|].
    destruct (SummaryCharts.geb _ (num 50));
      [cbn; now rewrite <- !app_assoc|].
    destruct (SummaryCharts.geb _ (num 30));
      cbn; now rewrite <- !app_assoc.
Qed.

Lemma difficulty_partition stats :
  (length (List.filter (SummaryCharts.has_difficulty SummaryCharts.Easy) stats)
   + length (List.filter (SummaryCharts.has_difficulty SummaryCharts.Medium) stats)
   + length (List.filter (SummaryCharts.has_difficulty SummaryCharts.Hard) stats)
   + length (List.filter (SummaryCharts.has_difficulty SummaryCharts.VeryHard) stats)
   = length stats)%nat.
Proof.
  induction stats as [|q stats IH]; [reflexivity|].
  cbn [List.filter].
  destruct (SummaryCharts.has_difficulty SummaryCharts.Easy q) eqn:E1,
           (SummaryCharts.has_difficulty SummaryCharts.Medium q) eqn:E2,
           (SummaryCharts.has_difficulty SummaryCharts.Hard q) eqn:E3,
           (SummaryCharts.has_difficulty SummaryCharts.VeryHard q) eqn:E4;
    unfold SummaryCharts.has_difficulty in E1, E2, E3, E4;
    destruct (SummaryCharts.difficulty (SummaryCharts.accuracy q));
    try discriminate; cbn [length]; lia.
Qed.

(** X13: the difficulty chart sorts every question into exactly one of its
    four ranges, the one whose name the card of the question shows, and
    keeps the order of the questions within a range; so the sizes of the
    ranges add up to the number of questions.  A question that nobody
    answered has accuracy 0 and is counted as very hard. *)
Theorem difficulty_ranges_partition (stats : list SummaryCharts.QuestionStat)
    (qs : list Question) (allAnswers : list Answer) :
  SummaryCharts.easy (SummaryCharts.difficultyRanges stats)
    = List.filter (SummaryCharts.has_difficulty SummaryCharts.Easy) stats /\
  SummaryCharts.medium (SummaryCharts.difficultyRanges stats)
    = List.filter (SummaryCharts.has_difficulty SummaryCharts.Medium) stats /\
  SummaryCharts.hard (SummaryCharts.difficultyRanges stats)
    = List.filter (SummaryCharts.has_difficulty SummaryCharts.Hard) stats /\
  SummaryCharts.very_hard (SummaryCharts.difficultyRanges stats)
    = List.filter (SummaryCharts.has_difficulty SummaryCharts.VeryHard) stats /\
  (length (SummaryCharts.easy (SummaryCharts.difficultyRanges stats))
   + length (SummaryCharts.medium (SummaryCharts.difficultyRanges stats))
   + length (SummaryCharts.hard (SummaryCharts.difficultyRanges stats))
   + length (SummaryCharts.very_hard (SummaryCharts.difficultyRanges stats))
   = length stats)%nat /\
  (forall q, In q (SummaryCharts.questionStats qs allAnswers) ->
     SummaryCharts.totalAnswers q = 0 ->
     SummaryCharts.difficulty (SummaryCharts.accuracy q) = SummaryCharts.VeryHard).
Proof.
  unfold SummaryCharts.difficultyRanges.
  destruct (push_question_filters stats
              {| SummaryCharts.easy := []; SummaryCharts.medium := [];
                 SummaryCharts.hard := []; SummaryCharts.very_hard := [] |})
    as (-> & -> & -> & ->).
  cbn [SummaryCharts.easy SummaryCharts.medium SummaryCharts.hard
       SummaryCharts.very_hard app].
  repeat (split; [reflexivity|]).
  split; [apply difficulty_partition|].
  intros q Hq Hzero. unfold SummaryCharts.questionStats in Hq.
  apply list_elem_of_In, elem_of_lookup_imap in Hq as (i & question & -> & _).
  unfold SummaryCharts.question_stat in *.
  cbn [SummaryCharts.totalAnswers SummaryCharts.accuracy] in *.
  destruct (List.filter _ allAnswers); [reflexivity|].
  cbn [length] in Hzero. lia.
Qed.

Lemma count_score_sum m ranges sc :
  SummaryCharts.excellent (SummaryCharts.count_score m ranges sc)
  + SummaryCharts.good (SummaryCharts.count_score m ranges sc)
  + SummaryCharts.average (SummaryCharts.count_score m ranges sc)
  + SummaryCharts.below_average (SummaryCharts.count_score m ranges sc)
  = SummaryCharts.excellent ranges + SummaryCharts.good ranges
    + SummaryCharts.average ranges + SummaryCharts.below_average ranges + 1.
Proof.
  unfold SummaryCharts.count_score.
  repeat (destruct (SummaryCharts.geb _ _); [cbn; lia|]). cbn. lia.
Qed.

Lemma count_score_nonneg m ranges sc :
  (0 <= SummaryCharts.excellent ranges /\ 0 <= SummaryCharts.good ranges /\
   0 <= SummaryCharts.average ranges /\ 0 <= SummaryCharts.below_average ranges) ->
  0 <= SummaryCharts.excellent (SummaryCharts.count_score m ranges sc) /\
  0 <= SummaryCharts.good (SummaryCharts.count_score m ranges sc) /\
  0 <= SummaryCharts.average (SummaryCharts.count_score m ranges sc) /\
  0 <= SummaryCharts.below_average (SummaryCharts.count_score m ranges sc).
Proof.
  unfold SummaryCharts.count_score.
  repeat (destruct (SummaryCharts.geb _ _); [cbn; lia|]). cbn. lia.
Qed.

Lemma Math_max_zeros scores :
  Forall (fun sc => sc = 0) scores ->
  SummaryCharts.Math_max (map num scores) = neg_infinity \/
  SummaryCharts.Math_max (map num scores) = num 0.
Proof.
  unfold SummaryCharts.Math_max. intros Hz.
  assert (forall acc, acc = neg_infinity \/ acc = num 0 ->
            let r := foldl (fun acc x =>
                              if PrimFloat.is_nan acc || PrimFloat.is_nan x then nan
                              else if PrimFloat.ltb acc x then x else acc)
                           acc (map num scores) in
            r = neg_infinity \/ r = num 0) as Hgen.
  { induction Hz as [|sc scores -> _ IH]; intros acc Hacc; cbn [map foldl];
      [exact Hacc|].
    apply IH. destruct Hacc as [->| ->]; right; reflexivity. }
  apply Hgen. now left.
Qed.

Lemma count_score_zero m ranges :
  m = neg_infinity \/ m = num 0 ->
  SummaryCharts.count_score m ranges 0
  = {| SummaryCharts.excellent := SummaryCharts.excellent ranges;
       SummaryCharts.good := SummaryCharts.good ranges;
       SummaryCharts.average := SummaryCharts.average ranges;
       SummaryCharts.below_average := SummaryCharts.below_average ranges + 1 |}.
Proof. intros [->| ->]; reflexivity. Qed.

Lemma foldl_count_score_sum m scores : forall ranges,
  SummaryCharts.excellent (foldl (SummaryCharts.count_score m) ranges scores)
  + SummaryCharts.good (foldl (SummaryCharts.count_score m) ranges scores)
  + SummaryCharts.average (foldl (SummaryCharts.count_score m) ranges scores)
  + SummaryCharts.below_average (foldl (SummaryCharts.count_score m) ranges scores)
  = SummaryCharts.excellent ranges + SummaryCharts.good ranges
    + SummaryCharts.average ranges + SummaryCharts.below_average ranges
    + Z.of_nat (length scores).
Proof.
  induction scores as [|sc scores IH]; intros ranges; cbn [foldl length].
  - lia.
  - rewrite IH, count_score_sum. lia.
Qed.

Lemma foldl_count_score_nonneg m scores : forall ranges,
  (0 <= SummaryCharts.excellent ranges /\ 0 <= SummaryCharts.good ranges /\
   0 <= SummaryCharts.average ranges /\ 0 <= SummaryCharts.below_average ranges) ->
  0 <= SummaryCharts.excellent (foldl (SummaryCharts.count_score m) ranges scores) /\
  0 <= SummaryCharts.good (foldl (SummaryCharts.count_score m) ranges scores) /\
  0 <= SummaryCharts.average (foldl (SummaryCharts.count_score m) ranges scores) /\
  0 <= SummaryCharts.below_average
         (foldl (SummaryCharts.count_score m) ranges scores).
Proof.
  induction scores as [|sc scores IH]; intros ranges Hr; cbn [foldl];
    [exact Hr|].
  apply IH. now apply count_score_nonneg.
Qed.

Lemma foldl_count_score_zeros m scores :
  m = neg_infinity \/ m = num 0 ->
  Forall (fun sc => sc = 0) scores ->
  forall ranges,
    foldl (SummaryCharts.count_score m) ranges scores
    = {| SummaryCharts.excellent := SummaryCharts.excellent ranges;
         SummaryCharts.good := SummaryCharts.good ranges;
         SummaryCharts.average := SummaryCharts.average ranges;
         SummaryCharts.below_average :=
           SummaryCharts.below_average ranges + Z.of_nat (length scores) |}.
Proof.
  intros Hm Hz. induction Hz as [|sc scores -> _ IH]; intros ranges;
    cbn [foldl length].
  - destruct ranges; cbn. f_equal. lia.
  - rewrite IH, (count_score_zero m ranges Hm). cbn. f_equal. lia.
Qed.

(** X14: the score chart counts every player in exactly one of its four
    ranges, so its counts are not negative and add up to the number of
    players; when every player has score 0, nothing is divided and all
    players are counted below average. *)
Theorem score_ranges_partition (scores : list Z) :
  SummaryCharts.excellent (SummaryCharts.scoreRanges scores)
  + SummaryCharts.good (SummaryCharts.scoreRanges scores)
  + SummaryCharts.average (SummaryCharts.scoreRanges scores)
  + SummaryCharts.below_average (SummaryCharts.scoreRanges scores)
  = Z.of_nat (length scores) /\
  (0 <= SummaryCharts.excellent (SummaryCharts.scoreRanges scores) /\
   0 <= SummaryCharts.good (SummaryCharts.scoreRanges scores) /\
   0 <= SummaryCharts.average (SummaryCharts.scoreRanges scores) /\
   0 <= SummaryCharts.below_average (SummaryCharts.scoreRanges scores)) /\
  (Forall (fun sc => sc = 0) scores ->
   SummaryCharts.scoreRanges scores
   = {| SummaryCharts.excellent := 0; SummaryCharts.good := 0;
        SummaryCharts.average := 0;
        SummaryCharts.below_average := Z.of_nat (length scores) |}).
Proof.
  unfold SummaryCharts.scoreRanges. split; [|split].
  - rewrite foldl_count_score_sum. cbn. lia.
  - apply foldl_count_score_nonneg. cbn. lia.
  - intros Hz.
    rewrite (foldl_count_score_zeros _ scores (Math_max_zeros scores Hz) Hz).
    reflexivity.
Qed.

Lemma count_from_split (allAnswers : list Answer) (j : Z) (n : nat) :
  Nat.add
    (length (List.filter (fun a => question_index a =? j) allAnswers))
    (length (List.filter (fun a => (j + 1 <=? question_index a)
                                   && (question_index a <? j + 1 + Z.of_nat n))
                         allAnswers))
  = length (List.filter (fun a => (j <=? question_index a)
                                  && (question_index a <? j + Z.of_nat (S n)))
                        allAnswers).
Proof.
  induction allAnswers as [|a l IH]; [reflexivity|].
  cbn [List.filter].
  destruct (question_index a =? j) eqn:E1;
    destruct ((j + 1 <=? question_index a)
              && (question_index a <? j + 1 + Z.of_nat n)) eqn:E2;
    destruct ((j <=? question_index a)
              && (question_index a <? j + Z.of_nat (S n))) eqn:E3;
    cbn [length]; try lia; exfalso;
    rewrite ?andb_true_iff, ?andb_false_iff, ?Z.eqb_eq, ?Z.eqb_neq,
      ?Z.leb_le, ?Z.leb_gt, ?Z.ltb_lt, ?Z.ltb_ge in *; lia.
Qed.

Lemma question_totals_from allAnswers qs : forall j : nat,
  SummaryCharts.sum_Z
    (map SummaryCharts.totalAnswers
         (imap (fun i => SummaryCharts.question_stat allAnswers (j + i)) qs))
  = Z.of_nat
      (length (List.filter
                 (fun a => (Z.of_nat j <=? question_index a)
                           && (question_index a <? Z.of_nat j + Z.of_nat (length qs)))
                 allAnswers)).
Proof.
  induction qs as [|q qs IH]; intros j.
  - cbn [imap map SummaryCharts.sum_Z foldr length].
    rewrite (List.filter_ext _ (fun _ => false)), filter_false; [reflexivity|].
    intros a. apply andb_false_iff.
    destruct (Z.of_nat j <=? question_index a) eqn:E; [right|now left].
    apply Z.leb_le in E. apply Z.ltb_ge. lia.
  - rewrite imap_cons. cbn [map SummaryCharts.sum_Z foldr].
    fold (SummaryCharts.sum_Z
            (map SummaryCharts.totalAnswers
                 (imap ((fun i => SummaryCharts.question_stat allAnswers (j + i)) ∘ S)
                       qs))).
    rewrite (imap_ext _ (fun i => SummaryCharts.question_stat allAnswers (S j + i)))
      by (intros i x _; cbn; f_equal; lia).
    rewrite IH. cbn [SummaryCharts.question_stat SummaryCharts.totalAnswers length].
    rewrite Nat.add_0_r, <- Nat2Z.inj_add. f_equal.
    rewrite <- (count_from_split allAnswers (Z.of_nat j) (length qs)).
    f_equal. f_equal. apply List.filter_ext. intros a.
    now rewrite Nat2Z.inj_succ, <- Z.add_1_r.
Qed.

(** X15: the summary has one entry per question, numbered from 1; in each,
    the correct answers are part of the answers counted.  The answers of
    all entries add up to the number of stored answers whose question index
    is one of the quiz; an answer stored with another index is counted in
    the total of the overview and under no question. *)
Theorem question_totals_add_up (qs : list Question) (allAnswers : list Answer) :
  length (SummaryCharts.questionStats qs allAnswers) = length qs /\
  (forall i q, SummaryCharts.questionStats qs allAnswers !! i = Some q ->
     SummaryCharts.questionIndex q = Z.of_nat i + 1 /\
     0 <= SummaryCharts.correctAnswers q <= SummaryCharts.totalAnswers q) /\
  SummaryCharts.sum_Z
    (map SummaryCharts.totalAnswers (SummaryCharts.questionStats qs allAnswers))
  = Z.of_nat (length (List.filter (SummaryCharts.for_a_question (length qs))
                                  allAnswers)) /\
  SummaryCharts.sum_Z
    (map SummaryCharts.totalAnswers (SummaryCharts.questionStats qs allAnswers))
  <= Summary.totalAnswers allAnswers.
Proof.
  assert (SummaryCharts.sum_Z
            (map SummaryCharts.totalAnswers
                 (SummaryCharts.questionStats qs allAnswers))
          = Z.of_nat (length (List.filter
                                (SummaryCharts.for_a_question (length qs))
                                allAnswers))) as Hsum.
  { unfold SummaryCharts.questionStats.
    rewrite (imap_ext _ (fun i => SummaryCharts.question_stat allAnswers (0 + i)))
      by reflexivity.
    rewrite question_totals_from. reflexivity. }
  split; [apply length_imap|]. split; [|split; [exact Hsum|]].
  - intros i q Hq. unfold SummaryCharts.questionStats in Hq.
    rewrite list_lookup_imap in Hq.
    destruct (qs !! i) as [question|]; [|discriminate].
    injection Hq as <-.
    cbn [SummaryCharts.question_stat SummaryCharts.questionIndex
         SummaryCharts.correctAnswers SummaryCharts.totalAnswers].
    split; [reflexivity|].
    pose proof (List.filter_length_le is_correct
                  (List.filter (fun a => question_index a =? Z.of_nat i)
                               allAnswers)). lia.
  - rewrite Hsum. unfold Summary.totalAnswers.
    pose proof (List.filter_length_le
                  (SummaryCharts.for_a_question (length qs)) allAnswers). lia.
Qed.

(** ** The quiz editor's handlers *)

Section Keyed.
Context {A : Type} (key : A -> string).

Lemma keyed_unique (l : list A) (x y : A) :
  List.NoDup (map key l) -> In x l -> In y l -> key x = key y -> x = y.
Proof.
  induction l as [|a l IH]; intros Hnd Hx Hy Hk; [destruct Hx|].
  cbn [map] in Hnd. apply List.NoDup_cons_iff in Hnd as [Hfresh Hnd].
  destruct Hx as [<-|Hx], Hy as [<-|Hy].
  - reflexivity.
  - exfalso. apply Hfresh. rewrite Hk. apply in_map, Hy.
  - exfalso. apply Hfresh. rewrite <- Hk. apply in_map, Hx.
  - now apply IH.
Qed.

Lemma without_absent (k : string) (l : list A) :
  ~ In k (map key l) ->
  List.filter (fun x => negb (String.eqb (key x) k)) l = l.
Proof.
  induction l as [|a l IH]; intros Hnot; [reflexivity|]. cbn [List.filter].
  destruct (String.eqb_spec (key a) k) as [Heq|Hne]; cbn [negb].
  - exfalso. apply Hnot. left. exact Heq.
  - f_equal. apply IH. intros Hin. apply Hnot. now right.
Qed.

Lemma without_length (k : string) (l : list A) :
  List.NoDup (map key l) ->
  (length l
   <= S (length (List.filter (fun x => negb (String.eqb (key x) k)) l)))%nat.
Proof.
  induction l as [|a l IH]; intros Hnd; [cbn; lia|].
  cbn [map] in Hnd. apply List.NoDup_cons_iff in Hnd as [Hfresh Hnd].
  cbn [List.filter].
  destruct (String.eqb_spec (key a) k) as [Heq|Hne]; cbn [negb length].
  - rewrite without_absent; [lia|]. now rewrite <- Heq.
  - specialize (IH Hnd). lia.
Qed.

Lemma without_present (k : string) (l : list A) :
  In k (map key l) ->
  (S (length (List.filter (fun x => negb (String.eqb (key x) k)) l))
   <= length l)%nat.
Proof.
  induction l as [|a l IH]; intros Hin; [destruct Hin|].
  cbn [List.filter].
  destruct (String.eqb_spec (key a) k) as [Heq|Hne]; cbn [negb length].
  - pose proof (List.filter_length_le
                  (fun x => negb (String.eqb (key x) k)) l). lia.
  - destruct Hin as [Heq|Hin]; [contradiction|]. specialize (IH Hin). lia.
Qed.

Lemma filter_keeps_NoDup (P : A -> bool) (l : list A) :
  List.NoDup (map key l) -> List.NoDup (map key (List.filter P l)).
Proof.
  induction l as [|a l IH]; intros Hnd; [exact Hnd|].
  cbn [map] in Hnd. apply List.NoDup_cons_iff in Hnd as [Hfresh Hnd].
  cbn [List.filter]. destruct (P a); [|now apply IH].
  cbn [map]. apply List.NoDup_cons; [|now apply IH].
  intros Hin. apply Hfresh. apply in_map_iff in Hin as (x & Hx & Hin).
  apply filter_In in Hin as [Hin _]. apply in_map_iff. now exists x.
Qed.

End Keyed.

Lemma filter_split_length {A} (P Q : A -> bool) (l : list A) :
  length (List.filter P l)
  = Nat.add (length (List.filter P (List.filter Q l)))
            (length (List.filter P (List.filter (fun x => negb (Q x)) l))).
Proof.
  induction l as [|a l IH]; [reflexivity|]. cbn [List.filter].
  destruct (Q a), (P a) eqn:E; cbn [negb List.filter length]; rewrite ?E;
    cbn [length]; lia.
Qed.

Lemma find_question (qs : list CreateQuiz.Question) (questionId : string)
    (q : CreateQuiz.Question) :
  List.NoDup (map CreateQuiz.q_id qs) ->
  In q qs -> CreateQuiz.q_id q = questionId ->
  List.find (fun q => String.eqb (CreateQuiz.q_id q) questionId) qs = Some q.
Proof.
  intros Hnd Hin Hid.
  destruct (List.find _ qs) as [q0|] eqn:Hf.
  - apply find_some in Hf as [Hin0 Hid0]. apply String.eqb_eq in Hid0.
    f_equal. apply (keyed_unique CreateQuiz.q_id qs); congruence.
  - apply find_none with (x := q) in Hf; [|exact Hin].
    apply String.eqb_neq in Hf. contradiction.
Qed.

Lemma kept_map (f : CreateQuiz.Question -> CreateQuiz.Question)
    (qs : list CreateQuiz.Question) :
  (forall q, In q qs -> CreateQuiz.q_id (f q) = CreateQuiz.q_id q) ->
  (forall q, In q qs -> QuizEditor.question_kept q ->
             QuizEditor.question_kept (f q)) ->
  qs <> [] /\ List.NoDup (map CreateQuiz.q_id qs) /\
  Forall QuizEditor.question_kept qs ->
  map f qs <> [] /\ List.NoDup (map CreateQuiz.q_id (map f qs)) /\
  Forall QuizEditor.question_kept (map f qs).
Proof.
  intros Hid Hkept (Hne & Hnd & Hall). split; [|split].
  - destruct qs; [contradiction|discriminate].
  - rewrite List.map_map. rewrite (List.map_ext_in _ CreateQuiz.q_id); assumption.
  - apply List.Forall_forall. intros q' Hin.
    apply in_map_iff in Hin as (q & <- & Hin).
    apply Hkept; [exact Hin|]. now apply (proj1 (List.Forall_forall _ _) Hall).
Qed.

Lemma newQuestion_kept qid oid1 oid2 :
  oid1 <> oid2 -> QuizEditor.question_kept (QuizEditor.newQuestion qid oid1 oid2).
Proof.
  intros Hne. unfold QuizEditor.question_kept. cbn. split; [lia|].
  split; [|lia].
  apply List.NoDup_cons; [intros [H|[]]; congruence|].
  apply List.NoDup_cons; [intros []|apply List.NoDup_nil].
Qed.

Lemma initialQuiz_kept qid oid1 oid2 :
  oid1 <> oid2 -> QuizEditor.quiz_kept (QuizEditor.initialQuiz qid oid1 oid2).
Proof.
  intros Hne. unfold QuizEditor.quiz_kept. cbn [QuizEditor.initialQuiz CreateQuiz.questions].
  split; [discriminate|]. split.
  - cbn. apply List.NoDup_cons; [intros []|apply List.NoDup_nil].
  - apply List.Forall_cons; [now apply newQuestion_kept|apply List.Forall_nil].
Qed.

Lemma marked_at_most_one opts optionId :
  List.NoDup (map CreateQuiz.o_id opts) ->
  (length (List.filter CreateQuiz.isCorrect
             (map (fun opt =>
                     {| CreateQuiz.o_id := CreateQuiz.o_id opt;
                        CreateQuiz.o_text := CreateQuiz.o_text opt;
                        CreateQuiz.isCorrect :=
                          String.eqb (CreateQuiz.o_id opt) optionId |}) opts))
   <= 1)%nat.
Proof.
  induction opts as [|o opts IH]; intros Hnd; [cbn; lia|].
  cbn [map] in Hnd. apply List.NoDup_cons_iff in Hnd as [Hfresh Hnd].
  cbn [map List.filter CreateQuiz.isCorrect].
  destruct (String.eqb_spec (CreateQuiz.o_id o) optionId) as [Heq|Hne];
    [|now apply IH].
  rewrite none_marked with (optionId := optionId); [cbn; lia| |].
  - intros o' Ho'. apply in_map_iff in Ho' as (o0 & <- & _). reflexivity.
  - rewrite List.map_map. cbn [CreateQuiz.o_id]. now rewrite <- Heq.
Qed.

Lemma edit_kept (quiz : CreateQuiz.QuizData) (e : QuizEditor.EditorEvent) :
  QuizEditor.quiz_kept quiz -> QuizEditor.fresh_for quiz e ->
  QuizEditor.quiz_kept (QuizEditor.edit quiz e).
Proof.
  intros Hk Hfresh. pose proof Hk as (Hne & Hnd & Hall).
  destruct e; cbn [QuizEditor.edit QuizEditor.fresh_for] in *.
  - exact Hk.
  - exact Hk.
  - (* addQuestion *)
    destruct Hfresh as [Hnew Hdiff].
    unfold QuizEditor.quiz_kept, QuizEditor.addQuestion. cbn [CreateQuiz.questions].
    split; [|split].
    + destruct (CreateQuiz.questions quiz); discriminate.
    + rewrite List.map_app. apply List.NoDup_app; [exact Hnd| |].
      * cbn. apply List.NoDup_cons; [intros []|apply List.NoDup_nil].
      * intros a Ha [<-|[]]. contradiction.
    + apply List.Forall_app. split; [exact Hall|].
      apply List.Forall_cons; [now apply newQuestion_kept|apply List.Forall_nil].
  - (* removeQuestion *)
    unfold QuizEditor.removeQuestion.
    destruct (length (CreateQuiz.questions quiz) <=? 1)%nat eqn:Hlen; [exact Hk|].
    apply Nat.leb_gt in Hlen.
    unfold QuizEditor.quiz_kept. cbn [CreateQuiz.questions]. split; [|split].
    + pose proof (without_length CreateQuiz.q_id questionId _ Hnd) as Hl.
      intros Hnil. rewrite Hnil in Hl. cbn [length] in Hl. lia.
    + now apply filter_keeps_NoDup.
    + apply List.Forall_forall. intros q Hq. apply filter_In in Hq as [Hq _].
      now apply (proj1 (List.Forall_forall _ _) Hall).
  - (* updateQuestion, text *)
    unfold QuizEditor.quiz_kept, QuizEditor.updateQuestion. cbn [CreateQuiz.questions].
    apply kept_map; [| |exact Hk].
    + intros q _. now destruct (String.eqb _ _).
    + intros q _ Hq. now destruct (String.eqb _ _).
  - (* updateQuestion, timeLimit *)
    unfold QuizEditor.quiz_kept, QuizEditor.updateQuestion. cbn [CreateQuiz.questions].
    apply kept_map; [| |exact Hk].
    + intros q _. now destruct (String.eqb _ _).
    + intros q _ Hq. now destruct (String.eqb _ _).
  - (* addOption *)
    unfold QuizEditor.addOption.
    destruct (List.find _ _) as [question|] eqn:Hf; [|exact Hk].
    destruct (10 <=? _)%nat eqn:Hlen; [exact Hk|].
    apply Nat.leb_gt in Hlen.
    apply find_some in Hf as [Hin Hid]. apply String.eqb_eq in Hid.
    unfold QuizEditor.quiz_kept. cbn [CreateQuiz.questions].
    apply kept_map; [| |exact Hk].
    + intros q _. now destruct (String.eqb _ _).
    + intros q Hq (Hlen' & Hnd' & Hcc).
      destruct (String.eqb_spec (CreateQuiz.q_id q) questionId) as [Heq|Hneq];
        [|now repeat split].
      assert (q = question) as ->
        by (apply (keyed_unique CreateQuiz.q_id (CreateQuiz.questions quiz));
            congruence).
      unfold QuizEditor.question_kept, CreateQuiz.correct_count,
        CreateQuiz.correctOptions in *.
      cbn [CreateQuiz.options].
      rewrite List.length_app, List.map_app, List.filter_app, List.length_app.
      cbn. split; [lia|]. split; [|lia].
      apply List.NoDup_app; [exact Hnd'| |].
      * apply List.NoDup_cons; [intros []|apply List.NoDup_nil].
      * intros a Ha [<-|[]]. now apply (Hfresh question).
  - (* removeOption *)
    unfold QuizEditor.removeOption.
    destruct (List.find _ _) as [question|] eqn:Hf; [|exact Hk].
    destruct (_ <=? 2)%nat eqn:Hlen; [exact Hk|].
    apply Nat.leb_gt in Hlen.
    apply find_some in Hf as [Hin Hid]. apply String.eqb_eq in Hid.
    unfold QuizEditor.quiz_kept. cbn [CreateQuiz.questions].
    apply kept_map; [| |exact Hk].
    + intros q _. now destruct (String.eqb _ _).
    + intros q Hq (Hlen' & Hnd' & Hcc).
      destruct (String.eqb_spec (CreateQuiz.q_id q) questionId) as [Heq|Hneq];
        [|now repeat split].
      assert (q = question) as ->
        by (apply (keyed_unique CreateQuiz.q_id (CreateQuiz.questions quiz));
            congruence).
      unfold QuizEditor.question_kept, CreateQuiz.correct_count,
        CreateQuiz.correctOptions in *.
      cbn [CreateQuiz.options].
      pose proof (without_length CreateQuiz.o_id optionId _ Hnd') as Hone.
      pose proof (List.filter_length_le
                    (fun opt => negb (String.eqb (CreateQuiz.o_id opt) optionId))
                    (CreateQuiz.options question)) as Hle.
      pose proof (filter_split_length CreateQuiz.isCorrect
                    (fun opt => negb (String.eqb (CreateQuiz.o_id opt) optionId))
                    (CreateQuiz.options question)) as Hsplit.
      split; [lia|]. split; [now apply filter_keeps_NoDup|].
      clear - Hsplit Hcc. cbv beta in Hsplit. lia.
  - (* updateOption, text *)
    unfold QuizEditor.quiz_kept, QuizEditor.updateOption. cbn [CreateQuiz.questions].
    apply kept_map; [| |exact Hk].
    + intros q _. now destruct (String.eqb _ _).
    + intros q Hq (Hlen' & Hnd' & Hcc).
      destruct (String.eqb (CreateQuiz.q_id q) questionId); [|now repeat split].
      unfold QuizEditor.question_kept, CreateQuiz.correct_count,
        CreateQuiz.correctOptions in *.
      cbn [CreateQuiz.options].
      assert (forall opts,
                map CreateQuiz.o_id
                    (map (fun opt => if String.eqb (CreateQuiz.o_id opt) optionId
                                     then QuizEditor.with_option_field opt
                                            (QuizEditor.set_o_text t)
                                     else opt) opts)
                = map CreateQuiz.o_id opts) as Hids.
      { intros opts. rewrite List.map_map. apply List.map_ext. intros o.
        now destruct (String.eqb _ _). }
      assert (forall opts,
                length (List.filter CreateQuiz.isCorrect
                    (map (fun opt => if String.eqb (CreateQuiz.o_id opt) optionId
                                     then QuizEditor.with_option_field opt
                                            (QuizEditor.set_o_text t)
                                     else opt) opts))
                = length (List.filter CreateQuiz.isCorrect opts)) as Hcorrect.
      { induction opts as [|o opts IH]; [reflexivity|]. cbn [map List.filter].
        assert (CreateQuiz.isCorrect
                  (if String.eqb (CreateQuiz.o_id o) optionId
                   then QuizEditor.with_option_field o (QuizEditor.set_o_text t)
                   else o) = CreateQuiz.isCorrect o) as ->
          by now destruct (String.eqb _ _).
        destruct (CreateQuiz.isCorrect o); cbn [length]; now rewrite IH. }
      rewrite List.length_map, Hids, Hcorrect. now repeat split.
  - (* setCorrectOption *)
    unfold QuizEditor.quiz_kept, CreateQuiz.setCorrectOption. cbn [CreateQuiz.questions].
    apply kept_map; [| |exact Hk].
    + intros q _. now destruct (String.eqb _ _).
    + intros q Hq (Hlen' & Hnd' & Hcc).
      destruct (String.eqb (CreateQuiz.q_id q) questionId); [|now repeat split].
      unfold QuizEditor.question_kept, CreateQuiz.correct_count,
        CreateQuiz.correctOptions in *.
      cbn [CreateQuiz.options].
      rewrite List.length_map, List.map_map. cbn [CreateQuiz.o_id].
      split; [exact Hlen'|]. split; [exact Hnd'|].
      now apply marked_at_most_one.
Qed.

(** X16: the editor keeps its quiz in shape.  Starting from a quiz with at
    least one question, distinct question ids and, in every question, two
    to ten options with distinct ids of which at most one is correct, any
    series of title, description, question and option edits with new ids
    leaves such a quiz; in particular no question ever has two correct
    options or fewer than two options. *)
Theorem editor_keeps_quiz (events : list QuizEditor.EditorEvent)
    (quiz : CreateQuiz.QuizData)
    (Hkept : QuizEditor.quiz_kept quiz)
    (Hfresh : QuizEditor.fresh_all events quiz) :
  QuizEditor.quiz_kept (QuizEditor.edits events quiz).
Proof.
  unfold QuizEditor.edits. revert quiz Hkept Hfresh.
  induction events as [|e events IH]; intros quiz Hkept Hfresh; [exact Hkept|].
  destruct Hfresh as [He Hrest]. cbn [foldl].
  apply IH; [now apply edit_kept|exact Hrest].
Qed.

Lemma editor_keeps_quiz_witness :
  QuizEditor.quiz_kept
    (QuizEditor.edits QuizEditor.sample_edits (QuizEditor.initialQuiz "q1" "a" "b")).
Proof.
  apply editor_keeps_quiz.
  - apply initialQuiz_kept. discriminate.
  - cbn. repeat split; try discriminate.
    + intros q [<-|[]] _ [H|[H|[]]]; discriminate.
    + intros [H|[]]; discriminate.
Defined.

Lemma validate_questions_valid qs :
  CreateQuiz.validate_questions qs = true <-> Forall QuizEditor.question_valid qs.
Proof.
  induction qs as [|question rest IH]; [split; [constructor|reflexivity]|].
  cbn [CreateQuiz.validate_questions]. rewrite List.Forall_cons_iff, <- IH.
  unfold QuizEditor.question_valid, CreateQuiz.correct_count.
  assert ((0 <? length (List.filter (fun opt => CreateQuiz.blank (CreateQuiz.o_text opt))
                                    (CreateQuiz.options question)))%nat = false
          <-> Forall (fun opt => CreateQuiz.blank (CreateQuiz.o_text opt) = false)
                     (CreateQuiz.options question)) as Hblank.
  { induction (CreateQuiz.options question) as [|o opts IHo];
      [split; [constructor|reflexivity]|].
    cbn [List.filter]. rewrite List.Forall_cons_iff, <- IHo.
    destruct (CreateQuiz.blank (CreateQuiz.o_text o)); cbn [length].
    - split; [discriminate|intros [? _]; discriminate].
    - tauto. }
  destruct (CreateQuiz.blank (CreateQuiz.q_text question));
    [split; [discriminate|intros ((? & _) & _); discriminate]|].
  destruct (CreateQuiz.timeLimit question <? 5) eqn:E5;
    [apply Z.ltb_lt in E5|apply Z.ltb_ge in E5]; cbn [orb].
  { split; [discriminate|intros ((_ & ? & _) & _); lia]. }
  destruct (CreateQuiz.timeLimit question >? 120) eqn:E120.
  { apply Z.gtb_lt in E120.
    split; [discriminate|intros ((_ & ? & _) & _); lia]. }
  assert (CreateQuiz.timeLimit question <= 120) as Hle.
  { destruct (Z.gtb_spec (CreateQuiz.timeLimit question) 120);
      [discriminate|assumption]. }
  destruct (length (CreateQuiz.options question) <? 2)%nat eqn:E2;
    [apply Nat.ltb_lt in E2|apply Nat.ltb_ge in E2].
  { split; [discriminate|intros ((_ & _ & ? & _) & _); lia]. }
  destruct (0 <? _)%nat eqn:Eb.
  { split; [discriminate|].
    intros ((_ & _ & _ & Hb & _) & _). apply Hblank in Hb. discriminate. }
  destruct (length (CreateQuiz.correctOptions question) =? 0)%nat eqn:Ec;
    [apply Nat.eqb_eq in Ec|apply Nat.eqb_neq in Ec].
  { split; [discriminate|intros ((_ & _ & _ & _ & ?) & _); lia]. }
  split.
  - intros Hrest. repeat split; try assumption; try lia. now apply Hblank.
  - intros [_ Hrest]. exact Hrest.
Qed.

Lemma validateQuiz_valid quiz :
  CreateQuiz.validateQuiz quiz = true -> QuizEditor.quiz_valid quiz.
Proof.
  unfold CreateQuiz.validateQuiz, QuizEditor.quiz_valid. intros Hv.
  destruct (CreateQuiz.blank (CreateQuiz.title quiz)); [discriminate|].
  destruct (CreateQuiz.questions quiz) as [|q qs]; [discriminate|].
  cbn [length Nat.eqb] in Hv.
  repeat split; [discriminate|now apply validate_questions_valid].
Qed.

(** X17: [validateQuiz] accepts a quiz exactly when its title is not blank,
    it has a question, and every question has a text that is not blank, a
    time limit from 5 to 120 seconds, at least two options, no option with
    a blank text and at least one correct option.  A text is blank when
    nothing is left of it once the white space of [String.prototype.trim],
    that of Unicode and not only of ASCII, is removed from both ends. *)
Theorem validateQuiz_accepts (quiz : CreateQuiz.QuizData) :
  CreateQuiz.validateQuiz quiz = true <-> QuizEditor.quiz_valid quiz.
Proof.
  unfold CreateQuiz.validateQuiz, QuizEditor.quiz_valid.
  rewrite <- validate_questions_valid.
  destruct (CreateQuiz.blank (CreateQuiz.title quiz));
    [split; [discriminate|intros [? _]; discriminate]|].
  destruct (CreateQuiz.questions quiz) as [|q qs]; cbn [length Nat.eqb].
  - split; [discriminate|intros (_ & ? & _); contradiction].
  - split; [intros H; repeat split; [discriminate|exact H]|].
    intros (_ & _ & H). exact H.
Qed.

(** The white space that is trimmed is that of [String.prototype.trim],
    not only that of ASCII: a title that is a no-break space is blank, and
    validation rejects the quiz that carries it. *)
Example unicode_white_space_is_trimmed :
  CreateQuiz.trim (CreateQuiz.utf8 0xA0 +:+ " a b" +:+ CreateQuiz.utf8 0x2003
                   +:+ CreateQuiz.utf8 0x09) = "a b" /\
  CreateQuiz.blank (CreateQuiz.utf8 0xFEFF +:+ CreateQuiz.utf8 0x2028) = true /\
  CreateQuiz.validateQuiz
    {| CreateQuiz.title := CreateQuiz.utf8 0xA0;
       CreateQuiz.description := "";
       CreateQuiz.questions := CreateQuiz.questions two_correct_quiz |} = false /\
  CreateQuiz.validateQuiz two_correct_quiz = true.
Proof. repeat split; vm_compute; reflexivity. Qed.

Lemma blank_trim s : CreateQuiz.blank s = false -> CreateQuiz.trim s <> "".
Proof. unfold CreateQuiz.blank. intros H. now apply String.eqb_neq. Qed.

Lemma question_writes_valid q :
  QuizEditor.question_valid q ->
  Forall QuizEditor.write_valid (CreateQuiz.question_writes q).
Proof.
  intros (Htext & Htime & Hlen & Hopts & Hcorrect).
  unfold CreateQuiz.question_writes.
  apply List.Forall_cons; [|apply List.Forall_cons; [|apply List.Forall_nil]].
  - cbn [QuizEditor.write_valid]. split; [now apply blank_trim|exact Htime].
  - cbn [QuizEditor.write_valid]. rewrite List.length_map.
    split; [exact Hlen|]. split.
    + apply List.Forall_map. cbn [fst].
      eapply List.Forall_impl; [|exact Hopts]. intros o. apply blank_trim.
    + apply List.Exists_map. cbn [snd].
      unfold CreateQuiz.correct_count, CreateQuiz.correctOptions in Hcorrect.
      destruct (List.filter CreateQuiz.isCorrect (CreateQuiz.options q))
        as [|o rest] eqn:Hf; [cbn in Hcorrect; lia|].
      assert (In o (List.filter CreateQuiz.isCorrect (CreateQuiz.options q)))
        as Hin by (rewrite Hf; now left).
      apply filter_In in Hin as [Hin Ho].
      apply List.Exists_exists. now exists o.
Qed.

Lemma question_writes_length qs :
  length (concat (map CreateQuiz.question_writes qs)) = Nat.mul 2 (length qs).
Proof.
  induction qs as [|q qs IH]; [reflexivity|].
  cbn [map concat]. rewrite List.length_app, IH. cbn [length CreateQuiz.question_writes].
  lia.
Qed.

Lemma send_prefix accepted requests : forall n,
  exists rest, requests = CreateQuiz.send accepted n requests ++ rest.
Proof.
  induction requests as [|w requests IH]; intros n; cbn [CreateQuiz.send].
  - now exists [].
  - destruct (accepted n || negb (CreateQuiz.error_read w)).
    + destruct (IH (S n)) as [rest Hrest]. exists rest.
      cbn [app]. now rewrite <- Hrest.
    + now exists requests.
Qed.

Lemma send_all accepted requests : forall n,
  (forall k, accepted k = true) -> CreateQuiz.send accepted n requests = requests.
Proof.
  induction requests as [|w requests IH]; intros n Hall; cbn [CreateQuiz.send];
    [reflexivity|].
  rewrite Hall. cbn [orb]. now rewrite IH.
Qed.

Lemma send_stops accepted requests : forall n i w,
  CreateQuiz.send accepted n requests !! i = Some w ->
  accepted (Nat.add n i) = false ->
  CreateQuiz.error_read w = true ->
  length (CreateQuiz.send accepted n requests) = S i.
Proof.
  induction requests as [|w0 requests IH]; intros n i w Hw Hrefused Hread;
    cbn [CreateQuiz.send] in *; [discriminate|].
  destruct i as [|i].
  - rewrite Nat.add_0_r in Hrefused.
    assert (w0 = w) as ->.
    { destruct (accepted n || negb (CreateQuiz.error_read w0));
        cbn in Hw; congruence. }
    now rewrite Hrefused, Hread.
  - destruct (accepted n || negb (CreateQuiz.error_read w0)).
    + cbn [length]. f_equal. apply (IH (S n) i w); [exact Hw| |exact Hread].
      now rewrite Nat.add_succ_comm.
    + cbn in Hw. discriminate Hw.
Qed.

Lemma requests_valid editing user_id quiz :
  QuizEditor.quiz_valid quiz ->
  Forall QuizEditor.write_valid (CreateQuiz.requests editing user_id quiz).
Proof.
  intros (Htitle & Hne & Hall). unfold CreateQuiz.requests.
  apply List.Forall_app. split.
  - destruct (CreateQuiz.edited editing); repeat constructor;
      now apply blank_trim.
  - apply List.Forall_concat, List.Forall_map.
    eapply List.Forall_impl; [|exact Hall]. apply question_writes_valid.
Qed.

Lemma requests_length editing user_id quiz :
  length (CreateQuiz.requests editing user_id quiz)
  = Nat.add (QuizEditor.quiz_writes editing)
            (Nat.mul 2 (length (CreateQuiz.questions quiz))).
Proof.
  unfold CreateQuiz.requests, QuizEditor.quiz_writes.
  rewrite List.length_app, question_writes_length.
  now destruct (CreateQuiz.edited editing).
Qed.

(** X18: whatever [saveQuiz] sends has passed validation, whatever the
    store answers.  Every question it inserts has a trimmed text that is
    not empty and a time limit from 5 to 120; every set of options it
    inserts has at least two rows, no row with an empty text and a row
    marked correct; the quiz row has a title that is not empty.  It sends
    something only for a signed-in user and a quiz that validation accepts:
    at most one request for the quiz (two when an existing quiz is edited)
    and two for each question, exactly that many when the store accepts
    every request, and none after a refused request whose error is read. *)
Theorem saveQuiz_sends_valid (editing user : option string)
    (accepted : nat -> bool) (quiz : CreateQuiz.QuizData) :
  Forall QuizEditor.write_valid (CreateQuiz.saveQuiz editing user accepted quiz) /\
  (length (CreateQuiz.saveQuiz editing user accepted quiz)
   <= Nat.add (QuizEditor.quiz_writes editing)
              (Nat.mul 2 (length (CreateQuiz.questions quiz))))%nat /\
  (CreateQuiz.saveQuiz editing user accepted quiz <> [] ->
   QuizEditor.quiz_valid quiz /\ user <> None /\ user <> Some "" /\
   ((forall n, accepted n = true) ->
    length (CreateQuiz.saveQuiz editing user accepted quiz)
    = Nat.add (QuizEditor.quiz_writes editing)
              (Nat.mul 2 (length (CreateQuiz.questions quiz))))) /\
  (forall n w,
     CreateQuiz.saveQuiz editing user accepted quiz !! n = Some w ->
     accepted n = false -> CreateQuiz.error_read w = true ->
     length (CreateQuiz.saveQuiz editing user accepted quiz) = S n).
Proof.
  assert (forall sent : list CreateQuiz.Write, sent = [] ->
            Forall QuizEditor.write_valid sent /\
            (length sent
             <= Nat.add (QuizEditor.quiz_writes editing)
                        (Nat.mul 2 (length (CreateQuiz.questions quiz))))%nat /\
            (sent <> [] ->
             QuizEditor.quiz_valid quiz /\ user <> None /\ user <> Some "" /\
             ((forall n, accepted n = true) ->
              length sent
              = Nat.add (QuizEditor.quiz_writes editing)
                        (Nat.mul 2 (length (CreateQuiz.questions quiz))))) /\
            (forall n w,
               sent !! n = Some w ->
               accepted n = false -> CreateQuiz.error_read w = true ->
               length sent = S n)) as Hnone.
  { intros sent ->. split; [constructor|]. split; [cbn; lia|].
    split; [intros H; now contradiction H|]. intros n w H. discriminate H. }
  unfold CreateQuiz.saveQuiz.
  destruct (CreateQuiz.validateQuiz quiz) eqn:Hv; cbn [negb];
    [|now apply Hnone].
  destruct user as [user_id|]; [|now apply Hnone].
  destruct (String.eqb_spec user_id "") as [->|Huser]; [now apply Hnone|].
  clear Hnone.
  apply validateQuiz_valid in Hv.
  destruct (send_prefix accepted (CreateQuiz.requests editing user_id quiz) 0)
    as [rest Hrest].
  pose proof (requests_valid editing user_id quiz Hv) as Hvalid.
  pose proof (requests_length editing user_id quiz) as Hlen.
  rewrite Hrest in Hvalid, Hlen at 1.
  apply List.Forall_app in Hvalid as [Hvalid _].
  rewrite List.length_app in Hlen.
  split; [exact Hvalid|]. split; [lia|]. split.
  - intros _. split; [exact Hv|]. split; [discriminate|].
    split; [congruence|].
    intros Hall. rewrite send_all by exact Hall. apply requests_length.
  - intros n w Hw Hrefused Hread.
    now apply (send_stops accepted _ 0 n w).
Qed.

Ltac distinct_ids :=
  repeat (apply List.NoDup_cons; [cbn; intuition discriminate|]);
  apply List.NoDup_nil.

Lemma chosen_quiz_kept : QuizEditor.quiz_kept QuizEditor.chosen_quiz.
Proof.
  unfold QuizEditor.quiz_kept. cbn. split; [discriminate|].
  split; [distinct_ids|].
  apply List.Forall_cons; [|apply List.Forall_nil].
  unfold QuizEditor.question_kept. cbn. split; [lia|]. split; [distinct_ids|lia].
Qed.

(** X19: removing the option that is marked correct leaves its question
    without a correct option.  In a quiz as the editor keeps it, when the
    option removed from a question with more than two options is the
    correct one, the question has one option less and none correct, no
    other option being marked in its place; validation then rejects the
    quiz and nothing is sent to the store. *)
Theorem removing_the_correct_option
    (quiz : CreateQuiz.QuizData) (questionId optionId : string)
    (q : CreateQuiz.Question) (o : CreateQuiz.Option)
    (editing user : option string) (accepted : nat -> bool)
    (Hkept : QuizEditor.quiz_kept quiz)
    (Hq : In q (CreateQuiz.questions quiz))
    (Hid : CreateQuiz.q_id q = questionId)
    (Ho : In o (CreateQuiz.options q))
    (Hoid : CreateQuiz.o_id o = optionId)
    (Hcorrect : CreateQuiz.isCorrect o = true)
    (Hlen : (2 < length (CreateQuiz.options q))%nat) :
  (exists q',
     In q' (CreateQuiz.questions (QuizEditor.removeOption questionId optionId quiz)) /\
     CreateQuiz.q_id q' = questionId /\
     S (length (CreateQuiz.options q')) = length (CreateQuiz.options q) /\
     CreateQuiz.correct_count q' = 0%nat) /\
  CreateQuiz.validateQuiz (QuizEditor.removeOption questionId optionId quiz) = false /\
  CreateQuiz.saveQuiz editing user accepted
    (QuizEditor.removeOption questionId optionId quiz)
  = [].
Proof.
  destruct Hkept as (Hne & Hnd & Hall).
  pose proof (proj1 (List.Forall_forall _ _) Hall q Hq) as (Hlen' & Hnd' & Hcc).
  set (rest := List.filter
                 (fun opt => negb (String.eqb (CreateQuiz.o_id opt) optionId))
                 (CreateQuiz.options q)).
  set (q' := {| CreateQuiz.q_id := CreateQuiz.q_id q;
                CreateQuiz.q_text := CreateQuiz.q_text q;
                CreateQuiz.timeLimit := CreateQuiz.timeLimit q;
                CreateQuiz.options := rest |}).
  assert (In q' (CreateQuiz.questions
                   (QuizEditor.removeOption questionId optionId quiz))) as Hin'.
  { unfold QuizEditor.removeOption.
    rewrite (find_question _ _ q Hnd Hq Hid).
    rewrite (proj2 (Nat.leb_gt _ _) Hlen). cbn [CreateQuiz.questions].
    apply in_map_iff. exists q. split; [|exact Hq].
    now rewrite (proj2 (String.eqb_eq _ _) Hid). }
  assert (S (length rest) = length (CreateQuiz.options q)) as Hless.
  { pose proof (without_length CreateQuiz.o_id optionId _ Hnd') as Hone.
    pose proof (without_present CreateQuiz.o_id optionId (CreateQuiz.options q))
      as Hpresent.
    fold rest in Hone, Hpresent. apply Nat.le_antisymm; [|exact Hone].
    apply Hpresent. rewrite <- Hoid. apply in_map, Ho. }
  assert (CreateQuiz.correct_count q' = 0%nat) as Hnone.
  { unfold CreateQuiz.correct_count, CreateQuiz.correctOptions in *.
    cbn [q' CreateQuiz.options].
    pose proof (filter_split_length CreateQuiz.isCorrect
                  (fun opt => negb (String.eqb (CreateQuiz.o_id opt) optionId))
                  (CreateQuiz.options q)) as Hsplit.
    cbv beta in Hsplit. fold rest in Hsplit.
    assert (In o (List.filter CreateQuiz.isCorrect
                    (List.filter
                       (fun x => negb (negb (String.eqb (CreateQuiz.o_id x) optionId)))
                       (CreateQuiz.options q)))) as Hchosen.
    { apply filter_In. split; [|exact Hcorrect].
      apply filter_In. split; [exact Ho|].
      now rewrite (proj2 (String.eqb_eq _ _) Hoid). }
    destruct (List.filter CreateQuiz.isCorrect (List.filter _ (CreateQuiz.options q)))
      as [|x xs] in Hsplit, Hchosen; [destruct Hchosen|].
    cbn [length] in Hsplit. lia. }
  assert (CreateQuiz.validateQuiz
            (QuizEditor.removeOption questionId optionId quiz) = false) as Hrej.
  { destruct (CreateQuiz.validateQuiz _) eqn:E; [|reflexivity].
    apply validateQuiz_valid in E as (_ & _ & Hvalid).
    pose proof (proj1 (List.Forall_forall _ _) Hvalid q' Hin')
      as (_ & _ & _ & _ & Hsome). lia. }
  split; [|split; [exact Hrej|]].
  - exists q'. repeat split; assumption.
  - unfold CreateQuiz.saveQuiz. now rewrite Hrej.
Qed.

Lemma removing_the_correct_option_witness :
  CreateQuiz.validateQuiz
    (QuizEditor.removeOption "q1" "a" QuizEditor.chosen_quiz) = false /\
  CreateQuiz.saveQuiz None (Some "user-1") (fun _ => true)
    (QuizEditor.removeOption "q1" "a" QuizEditor.chosen_quiz) = [].
Proof.
  refine (proj2 (removing_the_correct_option QuizEditor.chosen_quiz "q1" "a"
                   {| CreateQuiz.q_id := "q1"; CreateQuiz.q_text := "";
                      CreateQuiz.timeLimit := 30;
                      CreateQuiz.options :=
                        [ {| CreateQuiz.o_id := "a"; CreateQuiz.o_text := "";
                             CreateQuiz.isCorrect := true |};
                          {| CreateQuiz.o_id := "b"; CreateQuiz.o_text := "";
                             CreateQuiz.isCorrect := false |};
                          {| CreateQuiz.o_id := "c"; CreateQuiz.o_text := "";
                             CreateQuiz.isCorrect := false |} ] |}
                   {| CreateQuiz.o_id := "a"; CreateQuiz.o_text := "";
                      CreateQuiz.isCorrect := true |}
                   None (Some "user-1") (fun _ => true)
                   chosen_quiz_kept _ _ _ _ _ _)).
  - left. reflexivity.
  - reflexivity.
  - left. reflexivity.
  - reflexivity.
  - reflexivity.
  - cbn. lia.
Defined.

(** X20: while a question has at most ten options, as the editor keeps it,
    every option has a colour and no two options of the question have the
    same one; the colours repeat from the eleventh option on. *)
Theorem option_colours_distinct (q : CreateQuiz.Question) (i j : nat) :
  (QuizEditor.question_kept q ->
   (i < length (CreateQuiz.options q))%nat ->
   (j < length (CreateQuiz.options q))%nat ->
   is_Some (QuizEditor.getOptionColor (Z.of_nat i)) /\
   (QuizEditor.getOptionColor (Z.of_nat i) = QuizEditor.getOptionColor (Z.of_nat j) ->
    i = j)) /\
  QuizEditor.getOptionColor (Z.of_nat i + 10) = QuizEditor.getOptionColor (Z.of_nat i).
Proof.
  split.
  - intros ((_ & Hten) & _) Hi Hj.
    assert (i < 10)%nat as Hi' by lia. assert (j < 10)%nat as Hj' by lia.
    clear - Hi' Hj'.
    destruct i as [|[|[|[|[|[|[|[|[|[|i]]]]]]]]]]; try lia;
      (split; [eexists; reflexivity|]);
      destruct j as [|[|[|[|[|[|[|[|[|[|j]]]]]]]]]]; try lia;
      intros H; try reflexivity; vm_compute in H; discriminate H.
  - unfold QuizEditor.getOptionColor. f_equal.
    cbn [length QuizEditor.colors]. change (Z.of_nat 10) with 10.
    rewrite !Z.rem_mod_nonneg by lia.
    rewrite <- (Z.mul_1_l 10) at 1. now rewrite Z.mod_add by lia.
Qed.
